(** * useFormValidation: a shallow embedding of the form-validation hook

    The development embeds the React hook [useFormValidation]
    (src/hooks/useFormValidation.js, and the shorter variant of the same
    hook) and proves the properties its specification states about it.

    Modelling choices, all read off the source:
    - JavaScript objects used as dictionaries ([values], [errors],
      [touched], [validationRules]) are finite maps with string keys;
      reading an absent key gives [undefined].
    - A rule is a function from a JavaScript value to a string, as the
      hook's documentation declares ("recibe el valor y retorna un string
      de error o cadena vacia").
    - The five [useState] cells form one record; a handler is a
      computation that reads the cells, calls the setters in source order,
      may raise a JavaScript exception, and leaves a log of the setter
      calls and of the calls that leave the hook (the submit callback,
      [console.error], [preventDefault], the deferred focus).
    - A handler runs on the state of the render that created it, and the
      next handler runs on the state the previous one left. No handler
      reads a cell after writing it, so the values a closure captured and
      the values of the record agree. What other handlers do while a
      submit callback is pending is not part of the model.
    - Field names are ordinary keys: a name that an object inherits from
      [Object.prototype] is not a field name here. *)

From stdpp Require Import gmap strings list fin_maps pretty.
From Stdlib Require Import Ascii.

Open Scope string_scope.
Open Scope list_scope.

(** ** JavaScript values *)

(** The values a form field, a change payload or a thrown exception can be.
    Numbers are the integer-valued ones; [JFileList] is the [files]
    collection of a file input, given by its file names. *)
#[local] Unset Elimination Schemes.
Inductive JsVal : Type :=
| JUndefined
| JNull
| JBool (b : bool)
| JNum (n : Z)
| JStr (s : string)
| JFileList (names : list string)
| JObject (props : list (string * JsVal)).
#[local] Set Elimination Schemes.

(** ToBoolean: what [if (v)], [!v] and [v && ...] look at. *)
Definition truthy (v : JsVal) : bool :=
  match v with
  | JUndefined | JNull => false
  | JBool b => b
  | JNum n => negb (Z.eqb n 0)
  | JStr s => match s with EmptyString => false | String _ _ => true end
  | JFileList _ | JObject _ => true
  end.

(** [typeof v]. *)
Definition typeof (v : JsVal) : string :=
  match v with
  | JUndefined => "undefined"
  | JNull | JFileList _ | JObject _ => "object"
  | JBool _ => "boolean"
  | JNum _ => "number"
  | JStr _ => "string"
  end.

(** Truthiness of a string, as in [if (error)]. *)
Definition nonEmpty (s : string) : bool :=
  match s with EmptyString => false | String _ _ => true end.

(** Own property of an object literal: the last binding of a key wins. *)
Fixpoint lookupProp (k : string) (props : list (string * JsVal)) : option JsVal :=
  match props with
  | [] => None
  | (k', v) :: rest =>
      match lookupProp k rest with
      | Some w => Some w
      | None => if String.eqb k k' then Some v else None
      end
  end.

(** ["k" in v], for [v] already known to be a non-null object. *)
Definition hasProp (k : string) (v : JsVal) : bool :=
  match v with
  | JObject props => bool_decide (is_Some (lookupProp k props))
  | _ => false
  end.

(** Result of an expression that can throw. *)
Inductive Res (A : Type) : Type :=
| Ok (a : A)
| Throw (e : JsVal).
Arguments Ok {A} a.
Arguments Throw {A} e.

Definition TypeError : JsVal := JObject [("name", JStr "TypeError")].

(** [v.k] for the keys the hook reads ([target], [type], [checked],
    [files], [value]): a TypeError on [undefined] and [null], the own
    property on an object, [undefined] on everything else (no primitive
    wrapper and no FileList has one of these keys). *)
Definition getProp (v : JsVal) (k : string) : Res JsVal :=
  match v with
  | JUndefined | JNull => Throw TypeError
  | JObject props => Ok (default JUndefined (lookupProp k props))
  | _ => Ok JUndefined
  end.

(** [v === "s"]. *)
Definition strictEqStr (v : JsVal) (s : string) : bool :=
  match v with
  | JStr t => String.eqb t s
  | _ => false
  end.

(** ** Rules *)

Definition Rule : Type := JsVal → string.

(** The loop of [validateField]:
    [for (const rule of rules) { const error = rule(value); if (error) return error; } return ""].
    The second component counts the calls [rule(value)] the loop makes. *)
Fixpoint runRules (rules : list Rule) (value : JsVal) : string * nat :=
  match rules with
  | [] => ("", 0)
  | rule :: rest =>
      let error := rule value in
      if nonEmpty error then (error, 1)
      else let '(r, n) := runRules rest value in (r, S n)
  end.

(** [(value) => !value ? message : ""], the required-check of the hook's
    documentation. *)
Definition requiredRule (message : string) : Rule :=
  fun value => if negb (truthy value) then message else "".

(** ** Form state *)

Record FormState : Type := mkFormState {
  values : gmap string JsVal;
  errors : gmap string string;
  touched : gmap string bool;
  isSubmitting : bool;
  isDirty : bool
}.

(** [obj[name]] on a values object. *)
Definition readValue (vs : gmap string JsVal) (name : string) : JsVal :=
  default JUndefined (vs !! name).

(** Truthiness of [errors[name]]. *)
Definition hasError (es : gmap string string) (name : string) : bool :=
  match es !! name with
  | Some s => nonEmpty s
  | None => false
  end.

(** Truthiness of [touched[name]]. *)
Definition isTouched (ts : gmap string bool) (name : string) : bool :=
  default false (ts !! name).

(** [Object.keys(obj)]. The maps below are built key by key from distinct
    keys, so the enumeration order does not show in any result. *)
Definition objectKeys {A} (m : gmap string A) : list string :=
  (map_to_list m).*1.

(** ** Handlers as computations *)

(** What a handler does besides changing the state cells. The setter
    entries carry the value the cell receives. *)
Inductive Effect : Type :=
| PreventDefault
| SetValues (vs : gmap string JsVal)
| SetErrors (es : gmap string string)
| SetTouched (ts : gmap string bool)
| SetIsSubmitting (b : bool)
| SetIsDirty (b : bool)
| CallOnSubmit (vs : gmap string JsVal)
| ConsoleError (e : JsVal)
| ScheduleFocusFirstError.

(** A handler body: from the state it starts in, a result (or a thrown
    value), the state its setter calls leave, and the log. *)
Definition M (A : Type) : Type := FormState → Res A * FormState * list Effect.

Definition ret {A} (a : A) : M A := fun st => (Ok a, st, []).

Definition bind {A B} (m : M A) (k : A → M B) : M B :=
  fun st =>
    match m st with
    | (Ok a, st1, l1) => let '(r, st2, l2) := k a st1 in (r, st2, l1 ++ l2)
    | (Throw e, st1, l1) => (Throw e, st1, l1)
    end.

Declare Scope hook_scope.
Delimit Scope hook_scope with hook.
Notation "x ← y ; z" := (bind y (fun x => z))
  (at level 20, y at level 100, z at level 200, only parsing) : hook_scope.
Notation "x ;; z" := (bind x (fun _ => z))
  (at level 100, z at level 200, only parsing, right associativity) : hook_scope.

(** A pure expression that can throw. *)
Definition liftRes {A} (r : Res A) : M A := fun st => (r, st, []).

(** [try { m } catch (error) { h error }]. *)
Definition tryCatch (m : M unit) (h : JsVal → M unit) : M unit :=
  fun st =>
    match m st with
    | (Ok a, st1, l1) => (Ok a, st1, l1)
    | (Throw e, st1, l1) => let '(r, st2, l2) := h e st1 in (r, st2, l1 ++ l2)
    end.

Definition emit (e : Effect) : M unit := fun st => (Ok tt, st, [e]).

Definition getValues : M (gmap string JsVal) := fun st => (Ok (values st), st, []).

(** The setters; the functional form [setX(prev => f prev)] is [updX f]. *)
Definition updValues (f : gmap string JsVal → gmap string JsVal) : M unit :=
  fun st =>
    let vs := f (values st) in
    (Ok tt, mkFormState vs (errors st) (touched st) (isSubmitting st) (isDirty st),
     [SetValues vs]).

Definition updErrors (f : gmap string string → gmap string string) : M unit :=
  fun st =>
    let es := f (errors st) in
    (Ok tt, mkFormState (values st) es (touched st) (isSubmitting st) (isDirty st),
     [SetErrors es]).

Definition updTouched (f : gmap string bool → gmap string bool) : M unit :=
  fun st =>
    let ts := f (touched st) in
    (Ok tt, mkFormState (values st) (errors st) ts (isSubmitting st) (isDirty st),
     [SetTouched ts]).

Definition setValues (vs : gmap string JsVal) : M unit := updValues (fun _ => vs).
Definition setErrors (es : gmap string string) : M unit := updErrors (fun _ => es).
Definition setTouched (ts : gmap string bool) : M unit := updTouched (fun _ => ts).

Definition setIsSubmitting (b : bool) : M unit :=
  fun st =>
    (Ok tt, mkFormState (values st) (errors st) (touched st) b (isDirty st),
     [SetIsSubmitting b]).

Definition setIsDirty (b : bool) : M unit :=
  fun st =>
    (Ok tt, mkFormState (values st) (errors st) (touched st) (isSubmitting st) b,
     [SetIsDirty b]).

(** The state a handler leaves, its result and its log. *)
Definition stateOf {A} (x : Res A * FormState * list Effect) : FormState := x.1.2.
Definition resultOf {A} (x : Res A * FormState * list Effect) : Res A := x.1.1.
Definition logOf {A} (x : Res A * FormState * list Effect) : list Effect := x.2.

(** The settled result of [await onSubmit(values)]: [Ok] when the callback
    returns or its promise fulfils, [Throw reason] when it throws or its
    promise rejects. The callback is an external collaborator. *)
Definition SubmitCallback : Type := gmap string JsVal → Res unit.

(** The event a submit handler may receive. *)
Inductive DomEvent : Type := SubmitEvent.

(** Sequencing of two expressions that can throw. *)
Definition rbind {A B} (r : Res A) (k : A → Res B) : Res B :=
  match r with
  | Ok a => k a
  | Throw e => Throw e
  end.

(** The test that opens [handleChange]:
    [eventOrValue && typeof eventOrValue === "object" && "target" in eventOrValue]. *)
Definition isEvent (eventOrValue : JsVal) : bool :=
  truthy eventOrValue
  && String.eqb (typeof eventOrValue) "object"
  && hasProp "target" eventOrValue.

(** The value [handleChange] takes from its argument:
    [target.type === "checkbox" ? target.checked
     : target.type === "file" ? target.files : target.value]
    for an event, the argument itself otherwise. *)
Definition payloadValue (eventOrValue : JsVal) : Res JsVal :=
  if isEvent eventOrValue then
    rbind (getProp eventOrValue "target") (fun target =>
    rbind (getProp target "type") (fun ty =>
      if strictEqStr ty "checkbox" then getProp target "checked"
      else if strictEqStr ty "file" then getProp target "files"
      else getProp target "value"))
  else Ok eventOrValue.

(** ** The hook (src/hooks/useFormValidation.js) *)

Section Hook.

Local Open Scope hook_scope.

Variable initialValues : gmap string JsVal.
Variable validationRules : gmap string (list Rule).

Definition validateField (name : string) (value : JsVal) : string :=
  match validationRules !! name with
  | None => ""
  | Some rules => (runRules rules value).1
  end.

Definition handleChange (name : string) (eventOrValue : JsVal) : M unit :=
  value ← liftRes (payloadValue eventOrValue);
  updValues (fun prev => <[name := value]> prev);;
  updTouched (fun prev => <[name := true]> prev);;
  setIsDirty true;;
  let error := validateField name value in
  updErrors (fun prev => <[name := error]> prev).

Definition handleBlur (name : string) : M unit :=
  updTouched (fun prev => <[name := true]> prev);;
  vs ← getValues;
  let error := validateField name (readValue vs name) in
  updErrors (fun prev => <[name := error]> prev).

(** The hook returns [""] for the neutral state. *)
Definition getFieldState (st : FormState) (name : string) : string :=
  if negb (isTouched (touched st) name) then ""
  else if hasError (errors st) name then "error"
  else if truthy (readValue (values st) name) then "success"
  else "".

(** One turn of the [forEach] of [validateAll], on the pair
    [(newErrors, newTouched)]. *)
Definition validateAllStep (vs : gmap string JsVal)
    (acc : gmap string string * gmap string bool) (name : string)
    : gmap string string * gmap string bool :=
  let newTouched := <[name := true]> acc.2 in
  let error := validateField name (readValue vs name) in
  let newErrors := if nonEmpty error then <[name := error]> acc.1 else acc.1 in
  (newErrors, newTouched).

Definition validateAllLoop (vs : gmap string JsVal) (keys : list string)
    : gmap string string * gmap string bool :=
  foldl (validateAllStep vs) (∅, ∅) keys.

Definition validateAll : M bool :=
  vs ← getValues;
  let '(newErrors, newTouched) := validateAllLoop vs (objectKeys validationRules) in
  setTouched newTouched;;
  setErrors newErrors;;
  ret (Nat.eqb (length (objectKeys newErrors)) 0).

Definition handleSubmit (onSubmit : SubmitCallback) (e : option DomEvent) : M unit :=
  (match e with Some _ => emit PreventDefault | None => ret tt end);;
  setIsSubmitting true;;
  isFormValid ← validateAll;
  (if isFormValid : bool then
     vs ← getValues;
     tryCatch
       (emit (CallOnSubmit vs);; liftRes (onSubmit vs))
       (fun error => emit (ConsoleError error))
   else emit ScheduleFocusFirstError);;
  setIsSubmitting false.

Definition reset : M unit :=
  setValues initialValues;;
  setErrors ∅;;
  setTouched ∅;;
  setIsSubmitting false;;
  setIsDirty false.

Definition setFieldValue (name : string) (value : JsVal) : M unit :=
  updValues (fun prev => <[name := value]> prev);;
  setIsDirty true.

Definition setFieldError (name : string) (error : string) : M unit :=
  updErrors (fun prev => <[name := error]> prev);;
  updTouched (fun prev => <[name := true]> prev).

(** The state of the first render. *)
Definition initialState : FormState := mkFormState initialValues ∅ ∅ false false.

End Hook.

(** ** A validation pass in closed form

    The values that the loop of [validateAll] computes, named so that the
    properties below can speak of them. *)
Section ValidationPass.

Variable validationRules : gmap string (list Rule).

(** The entry that a validation pass leaves in [errors] for a key it
    visits: the message, or nothing when the message is empty. *)
Definition errorEntry (vs : gmap string JsVal) (name : string) : option string :=
  let error := validateField validationRules name (readValue vs name) in
  if nonEmpty error then Some error else None.

(** The state cells a validation pass assigns. *)
Definition passTouched : gmap string bool := (fun _ => true) <$> validationRules.

Definition passErrors (vs : gmap string JsVal) : gmap string string :=
  (validateAllLoop validationRules vs (objectKeys validationRules)).1.

End ValidationPass.

(** The part of the log between the two writes to [isSubmitting] that
    follows the validation pass. *)
Definition submitBranch (onSubmit : SubmitCallback) (vs : gmap string JsVal)
    (valid : bool) : list Effect :=
  if valid then
    CallOnSubmit vs ::
      match onSubmit vs with
      | Ok _ => []
      | Throw reason => [ConsoleError reason]
      end
  else [ScheduleFocusFirstError].

(** The operations the hook hands to the page, as one type, and the
    state each leaves. *)
Inductive Op : Type :=
| OpChange (name : string) (eventOrValue : JsVal)
| OpBlur (name : string)
| OpValidateAll
| OpSubmit (onSubmit : SubmitCallback) (e : option DomEvent)
| OpReset
| OpSetFieldValue (name : string) (value : JsVal)
| OpSetFieldError (name : string) (error : string).

Section Steps.

Variable initialValues : gmap string JsVal.
Variable validationRules : gmap string (list Rule).

Definition runOp (op : Op) (st : FormState) : FormState :=
  match op with
  | OpChange name p => stateOf (handleChange validationRules name p st)
  | OpBlur name => stateOf (handleBlur validationRules name st)
  | OpValidateAll => stateOf (validateAll validationRules st)
  | OpSubmit onSubmit e => stateOf (handleSubmit validationRules onSubmit e st)
  | OpReset => stateOf (reset initialValues st)
  | OpSetFieldValue name value => stateOf (setFieldValue name value st)
  | OpSetFieldError name error => stateOf (setFieldError name error st)
  end.

(** States reached from the first render by operations that satisfy [ok]. *)
Inductive Reachable (ok : Op → Prop) : FormState → Prop :=
| reach_init : Reachable ok (initialState initialValues)
| reach_step op st : Reachable ok st → ok op → Reachable ok (runOp op st).

End Steps.

(** [op] is not [setFieldError(f, _)]. *)
Definition notSetFieldErrorOn (f : string) (op : Op) : Prop :=
  match op with
  | OpSetFieldError name _ => name ≠ f
  | _ => True
  end.

(** ** The shorter variant of the hook

    The second copy of [useFormValidation] has no [isDirty] cell and no
    [setFieldValue]/[setFieldError]; its [validateField], [handleBlur] and
    [validateAll] are the ones above, word for word. The definitions that
    differ are given here; they run on the same record, whose [isDirty]
    they never write. *)
Module Basic.
Section Hook.

Local Open Scope hook_scope.

Variable initialValues : gmap string JsVal.
Variable validationRules : gmap string (list Rule).

(** [const value = e.target.value]. *)
Definition handleChange (name : string) (e : JsVal) : M unit :=
  value ← liftRes (rbind (getProp e "target") (fun target => getProp target "value"));
  updValues (fun prev => <[name := value]> prev);;
  updTouched (fun prev => <[name := true]> prev);;
  let error := validateField validationRules name value in
  updErrors (fun prev => <[name := error]> prev).

Definition getFieldState (st : FormState) (name : string) : string :=
  if negb (isTouched (touched st) name) then "neutral"
  else if hasError (errors st) name then "error"
  else "success".

Definition handleSubmit (onSubmit : SubmitCallback) (e : option DomEvent) : M unit :=
  (match e with Some _ => emit PreventDefault | None => ret tt end);;
  setIsSubmitting true;;
  isFormValid ← validateAll validationRules;
  (if isFormValid : bool then
     vs ← getValues;
     tryCatch
       (emit (CallOnSubmit vs);; liftRes (onSubmit vs))
       (fun error => emit (ConsoleError error))
   else ret tt);;
  setIsSubmitting false.

Definition reset : M unit :=
  setValues initialValues;;
  setErrors ∅;;
  setTouched ∅;;
  setIsSubmitting false.

End Hook.

(** The operations of the shorter variant. *)
Inductive Op : Type :=
| OpChange (name : string) (e : JsVal)
| OpBlur (name : string)
| OpValidateAll
| OpSubmit (onSubmit : SubmitCallback) (e : option DomEvent)
| OpReset.

Section Steps.

Variable initialValues : gmap string JsVal.
Variable validationRules : gmap string (list Rule).

Definition runOp (op : Op) (st : FormState) : FormState :=
  match op with
  | OpChange name e => stateOf (handleChange validationRules name e st)
  | OpBlur name => stateOf (handleBlur validationRules name st)
  | OpValidateAll => stateOf (validateAll validationRules st)
  | OpSubmit onSubmit e => stateOf (handleSubmit validationRules onSubmit e st)
  | OpReset => stateOf (reset initialValues st)
  end.

Inductive Reachable : FormState → Prop :=
| reach_init : Reachable (initialState initialValues)
| reach_step op st : Reachable st → Reachable (runOp op st).

End Steps.
End Basic.

(** The field state as the specification words it: neutral when the field
    is not touched, else error when its error is non-empty, else success. *)
Definition fieldStateAsSpecified (neutral : string) (st : FormState) (name : string)
    : string :=
  if negb (isTouched (touched st) name) then neutral
  else if hasError (errors st) name then "error"
  else "success".

(** ** Reading a log *)

(** The arguments of the calls to the submit callback, in order. *)
Fixpoint submitCalls (log : list Effect) : list (gmap string JsVal) :=
  match log with
  | [] => []
  | CallOnSubmit vs :: rest => vs :: submitCalls rest
  | _ :: rest => submitCalls rest
  end.

(** The values written to [isSubmitting], in order. *)
Fixpoint submittingWrites (log : list Effect) : list bool :=
  match log with
  | [] => []
  | SetIsSubmitting b :: rest => b :: submittingWrites rest
  | _ :: rest => submittingWrites rest
  end.

(** A write that [reset] makes and a submission has no reason to make:
    to [values] or to [isDirty]. *)
Definition isResetWrite (ev : Effect) : bool :=
  match ev with
  | SetValues _ | SetIsDirty _ => true
  | _ => false
  end.

(** ** A sample form

    The rule shapes of the hook's documentation: a required-check first,
    a second check after it. *)
Definition sampleRules : gmap string (list Rule) :=
  {[ "email" := [requiredRule "Email es requerido";
                 (fun _ : JsVal => "Email invalido")];
     "terms" := [requiredRule "Debes aceptar los terminos y condiciones"] ]}.

Definition sampleValues : gmap string JsVal :=
  {[ "email" := JStr ""; "bio" := JStr ""; "terms" := JBool false ]}.

Definition filledValues : gmap string JsVal :=
  {[ "email" := JStr "a@b.c"; "bio" := JStr ""; "terms" := JBool true ]}.

(** Rules with a required-check only, so that a filled form passes. *)
Definition requiredOnly : gmap string (list Rule) :=
  {[ "email" := [requiredRule "Email es requerido"];
     "terms" := [requiredRule "Debes aceptar los terminos y condiciones"] ]}.

(** An [onChange] event of an input element. *)
Definition inputEvent (type : string) (checked : bool) (value : string) : JsVal :=
  JObject [("target",
            JObject [("type", JStr type); ("checked", JBool checked);
                     ("files", JNull); ("value", JStr value)])].

Definition failingSubmit : SubmitCallback := fun _ => Throw (JStr "network down").
Definition passingSubmit : SubmitCallback := fun _ => Ok tt.

(** The state of the sample form after the user leaves the optional,
    rule-less field "bio" empty. *)
Definition blurredBio : FormState :=
  stateOf (handleBlur sampleRules "bio" (initialState sampleValues)).

(** The state of the sample form after the user types into the rule-less
    field "bio". *)
Definition typedBio : FormState :=
  runOp sampleValues sampleRules (OpChange "bio" (JStr "hola"))
    (initialState sampleValues).

(** ** The rest of the hook and its presentation

    [isValid] is computed at every render of the hook:
    [Object.keys(errors).every((key) => !errors[key]) && Object.keys(touched).length > 0]. *)
Definition isValid (st : FormState) : bool :=
  forallb (fun key => negb (hasError (errors st) key)) (objectKeys (errors st))
  && Nat.ltb 0 (length (objectKeys (touched st))).

(** [handleBlur(name)] as the function that a given render created.
    [useCallback(..., [validateField, values])] makes the function anew at
    every render, and the [values] it reads are those of that render; its
    setters act on the state as it is when the function runs. [handleBlur]
    above is this function run on the state of its own render. *)
Definition handleBlurFrom (validationRules : gmap string (list Rule))
    (render : FormState) (name : string) : M unit :=
  bind (updTouched (fun prev => <[name := true]> prev)) (fun _ =>
    let error := validateField validationRules name (readValue (values render) name) in
    updErrors (fun prev => <[name := error]> prev)).

(** [getIconColor] of the input component (components/ui/FormInput.jsx), a
    [switch] on the [state] property it receives. *)
Definition getIconColor (state : string) : string :=
  if String.eqb state "error" then "text-red-500"
  else if String.eqb state "success" then "text-green-500"
  else "hidden".

(** The input component shows the error paragraph under [{error && ...}],
    where [error] is [errors[name]]. *)
Definition showsErrorText (st : FormState) (name : string) : bool :=
  hasError (errors st) name.

(** The deferred scroll-and-focus on the first field in error. *)
Definition isFocusEffect (ev : Effect) : bool :=
  match ev with
  | ScheduleFocusFirstError => true
  | _ => false
  end.

(** Every operation is allowed. *)
Definition anyOp (op : Op) : Prop := True.

(** ** The validators (utils/validators.js)

    The functions that the page's rules call, and the rule makers that the
    file documents for use with the hook. A string is the sequence of its
    UTF-16 code units; the strings here are those whose code units are
    below 256, one character each, so that [String.length] is [.length]. *)
Module Validators.

Definition chars (s : string) : list ascii := String.list_ascii_of_string s.
Definition unchars (cs : list ascii) : string := String.string_of_list_ascii cs.

Definition code (c : ascii) : N := N_of_ascii c.

Definition inRange (lo hi c : ascii) : bool :=
  (code lo <=? code c)%N && (code c <=? code hi)%N.

(** [\d], [[A-Z]], [[a-z]]. *)
Definition isDigit (c : ascii) : bool := inRange "0" "9" c.
Definition isUpper (c : ascii) : bool := inRange "A" "Z" c.
Definition isLower (c : ascii) : bool := inRange "a" "z" c.

(** The white space and line terminators below 256: what [trim] strips
    and [\s] matches (tab, line feed, vertical tab, form feed, carriage
    return, space, no-break space). *)
Definition isWhiteSpace (c : ascii) : bool :=
  ((9 <=? code c)%N && (code c <=? 13)%N) || (code c =? 32)%N || (code c =? 160)%N.

Fixpoint dropWhile {A} (p : A → bool) (l : list A) : list A :=
  match l with
  | [] => []
  | x :: rest => if p x then dropWhile p rest else l
  end.

(** [s.trim()]. *)
Definition trimChars (cs : list ascii) : list ascii :=
  rev (dropWhile isWhiteSpace (rev (dropWhile isWhiteSpace cs))).

Definition trim (s : string) : string := unchars (trimChars (chars s)).

(** [value.toString()]: a TypeError on [null] and [undefined]; an object
    literal answers through [Object.prototype.toString] unless it has a
    [toString] property of its own, which no value here can make callable.
    A number is printed in decimal, as JavaScript prints an integer of
    magnitude below 10^21. *)
Definition jsToString (value : JsVal) : Res string :=
  match value with
  | JUndefined | JNull => Throw TypeError
  | JBool b => Ok (if b then "true" else "false")
  | JNum n => Ok (pretty n)
  | JStr s => Ok s
  | JFileList _ => Ok "[object FileList]"
  | JObject props =>
      match lookupProp "toString" props with
      | None => Ok "[object Object]"
      | Some _ => Throw TypeError
      end
  end.

(** [value !== null && value !== undefined && value.toString().trim() !== ""]. *)
Definition isRequired (value : JsVal) : Res bool :=
  match value with
  | JNull | JUndefined => Ok false
  | _ => rbind (jsToString value) (fun s => Ok (negb (String.eqb (trim s) "")))
  end.

(** [value && value.toString().length >= minLength]: the value itself
    when it is falsy. *)
Definition hasMinLength (value : JsVal) (minLength : Z) : Res JsVal :=
  if truthy value then
    rbind (jsToString value) (fun s =>
      Ok (JBool (Z.leb minLength (Z.of_nat (String.length s)))))
  else Ok value.

(** [!value || value.toString().length <= maxLength]. *)
Definition hasMaxLength (value : JsVal) (maxLength : Z) : Res bool :=
  if negb (truthy value) then Ok true
  else rbind (jsToString value) (fun s =>
         Ok (Z.leb (Z.of_nat (String.length s)) maxLength)).

(** A rule as a rule maker returns it: it may throw. *)
Definition RawRule : Type := JsVal → Res string.

(** An optional message: [None] when the argument is left out. *)
Definition orDefault (message : option string) (fallback : string) : string :=
  match message with
  | Some m => if nonEmpty m then m else fallback
  | None => fallback
  end.

(** [(message = "Este campo es requerido") => (value) => !isRequired(value) ? message : ""]. *)
Definition createRequiredRule (message : option string) : RawRule :=
  let message := default "Este campo es requerido" message in
  fun value => rbind (isRequired value) (fun ok => Ok (if negb ok then message else "")).

Definition createMinLengthRule (minLength : Z) (message : option string) : RawRule :=
  fun value =>
    if negb (truthy value) then Ok ""
    else
      let msg := orDefault message
                   ("Debe tener al menos " +:+ pretty minLength +:+ " caracteres") in
      rbind (hasMinLength value minLength) (fun ok =>
        Ok (if negb (truthy ok) then msg else "")).

Definition createMaxLengthRule (maxLength : Z) (message : option string) : RawRule :=
  fun value =>
    let msg := orDefault message
                 ("No debe exceder " +:+ pretty maxLength +:+ " caracteres") in
    rbind (hasMaxLength value maxLength) (fun ok => Ok (if negb ok then msg else "")).

(** A rule of the hook that is such a rule: wherever the maker's rule
    returns, the hook's rule returns the same string. *)
Definition behavesAs (rule : Rule) (raw : RawRule) : Prop :=
  ∀ value result, raw value = Ok result → rule value = result.

(** A raw rule as a rule of the hook, for the values on which it returns. *)
Definition asRule (raw : RawRule) : Rule :=
  fun value => match raw value with Ok result => result | Throw _ => "" end.

(** A string of white space only, the empty string included. *)
Definition isBlank (s : string) : bool := forallb isWhiteSpace (chars s).

(** *** validatePassword *)

Definition a_acute : string := String (ascii_of_N 225) "".
Definition u_acute : string := String (ascii_of_N 250) "".

(** The class of special characters of [validatePassword]: the
    punctuation listed below and the double quote. *)
Definition isSpecial (c : ascii) : bool :=
  existsb (Ascii.eqb c) (chars "!@#$%^&*(),.?:{}|<>" ++ [ascii_of_N 34]).

(** [/[A-Z]/.test(password)] and the like: some character is in the class. *)
Definition testClass (p : ascii → bool) (s : string) : bool := existsb p (chars s).

Record PasswordOptions : Type := mkPasswordOptions {
  minLength : option Z;
  requireUppercase : option bool;
  requireLowercase : option bool;
  requireNumbers : option bool;
  requireSpecialChars : option bool
}.

Record PasswordResult : Type := mkPasswordResult {
  isValid : bool;
  errors : list string
}.

(** [errors.push(message)] under [if (test)]. *)
Definition pushIf (test : bool) (message : string) (errors : list string) : list string :=
  if test then errors ++ [message] else errors.

Definition validatePassword (password : string) (options : PasswordOptions)
    : PasswordResult :=
  let minLength := default 8%Z (minLength options) in
  let requireUppercase := default true (requireUppercase options) in
  let requireLowercase := default true (requireLowercase options) in
  let requireNumbers := default true (requireNumbers options) in
  let requireSpecialChars := default true (requireSpecialChars options) in
  let errors := [] in
  let errors :=
    pushIf (Z.ltb (Z.of_nat (String.length password)) minLength)
      ("Debe tener al menos " +:+ pretty minLength +:+ " caracteres") errors in
  let errors :=
    pushIf (requireUppercase && negb (testClass isUpper password))
      ("Debe incluir al menos una letra may" +:+ u_acute +:+ "scula") errors in
  let errors :=
    pushIf (requireLowercase && negb (testClass isLower password))
      ("Debe incluir al menos una letra min" +:+ u_acute +:+ "scula") errors in
  let errors :=
    pushIf (requireNumbers && negb (testClass isDigit password))
      ("Debe incluir al menos un n" +:+ u_acute +:+ "mero") errors in
  let errors :=
    pushIf (requireSpecialChars && negb (testClass isSpecial password))
      ("Debe incluir al menos un car" +:+ a_acute +:+ "cter especial") errors in
  mkPasswordResult (Nat.eqb (length errors) 0) errors.

(** The options the page passes:
    [{ minLength: 6, requireUppercase: true, requireLowercase: true,
       requireNumbers: true, requireSpecialChars: false }]. *)
Definition pageOptions : PasswordOptions :=
  mkPasswordOptions (Some 6%Z) (Some true) (Some true) (Some true) (Some false).

(** [errors[0]]. *)
Definition firstError (r : PasswordResult) : JsVal :=
  match errors r with
  | [] => JUndefined
  | m :: _ => JStr m
  end.

(** *** Regular expressions

    The patterns of [isValidEmail] and [isValidMexicanPhone] are anchored
    at both ends and use classes, sequence, alternation, [?], [+] and
    counted repetition only; for such a pattern [test] answers whether the
    whole string belongs to the language of the pattern. *)
Inductive Regex : Type :=
| Never
| Empty
| Class (p : ascii → bool)
| Seq (r1 r2 : Regex)
| Alt (r1 r2 : Regex)
| Star (r : Regex).

Definition Chr (c : ascii) : Regex := Class (Ascii.eqb c).
Definition Plus (r : Regex) : Regex := Seq r (Star r).
Definition Opt (r : Regex) : Regex := Alt r Empty.

Fixpoint Times (n : nat) (r : Regex) : Regex :=
  match n with
  | O => Empty
  | S n => Seq r (Times n r)
  end.

Fixpoint Str (cs : list ascii) : Regex :=
  match cs with
  | [] => Empty
  | c :: rest => Seq (Chr c) (Str rest)
  end.

(** The strings of a pattern. *)
Inductive Matches : Regex → list ascii → Prop :=
| MEmpty : Matches Empty []
| MClass p c : p c = true → Matches (Class p) [c]
| MSeq r1 r2 s1 s2 : Matches r1 s1 → Matches r2 s2 → Matches (Seq r1 r2) (s1 ++ s2)
| MAltL r1 r2 s : Matches r1 s → Matches (Alt r1 r2) s
| MAltR r1 r2 s : Matches r2 s → Matches (Alt r1 r2) s
| MStarNil r : Matches (Star r) []
| MStarApp r s1 s2 : Matches r s1 → Matches (Star r) s2 → Matches (Star r) (s1 ++ s2).

(** The matcher: does the pattern accept the empty string, and what is
    left of the pattern after one character. *)
Fixpoint nullable (r : Regex) : bool :=
  match r with
  | Never => false
  | Empty => true
  | Class _ => false
  | Seq r1 r2 => nullable r1 && nullable r2
  | Alt r1 r2 => nullable r1 || nullable r2
  | Star _ => true
  end.

Fixpoint deriv (c : ascii) (r : Regex) : Regex :=
  match r with
  | Never => Never
  | Empty => Never
  | Class p => if p c then Empty else Never
  | Seq r1 r2 =>
      if nullable r1 then Alt (Seq (deriv c r1) r2) (deriv c r2)
      else Seq (deriv c r1) r2
  | Alt r1 r2 => Alt (deriv c r1) (deriv c r2)
  | Star r => Seq (deriv c r) (Star r)
  end.

Fixpoint matchesChars (r : Regex) (cs : list ascii) : bool :=
  match cs with
  | [] => nullable r
  | c :: rest => matchesChars (deriv c r) rest
  end.

(** [/^r$/.test(s)]. *)
Definition test (r : Regex) (s : string) : bool := matchesChars r (chars s).

(** [String(value)], the conversion [test] applies to its argument. *)
Definition jsString (value : JsVal) : Res string :=
  match value with
  | JUndefined => Ok "undefined"
  | JNull => Ok "null"
  | _ => jsToString value
  end.

(** [[^\s@]]. *)
Definition notSpaceNorAt (c : ascii) : bool :=
  negb (isWhiteSpace c || Ascii.eqb c "@").

(** [/^[^\s@]+@[^\s@]+\.[^\s@]+$/]. *)
Definition emailRegex : Regex :=
  Seq (Plus (Class notSpaceNorAt))
    (Seq (Chr "@")
       (Seq (Plus (Class notSpaceNorAt))
          (Seq (Chr ".") (Plus (Class notSpaceNorAt))))).

Definition isValidEmail (email : string) : bool := test emailRegex email.

(** [(message = "Formato de email invalido") => (value) => ...], with the
    accented letter of the source in the default message. *)
Definition createEmailRule (message : option string) : RawRule :=
  let message := default ("Formato de email inv" +:+ a_acute +:+ "lido") message in
  fun value =>
    if negb (truthy value) then Ok ""
    else rbind (jsString value) (fun email =>
           Ok (if negb (isValidEmail email) then message else "")).

(** [[\s-]] and [[1-9]]. *)
Definition isSpaceOrHyphen (c : ascii) : bool := isWhiteSpace c || Ascii.eqb c "-".
Definition isNonZeroDigit (c : ascii) : bool := inRange "1" "9" c.

(** [/^(\+52|52)?[\s-]?([1-9]\d{9})$/]. *)
Definition phoneRegex : Regex :=
  Seq (Opt (Alt (Str (chars "+52")) (Str (chars "52"))))
    (Seq (Opt (Class isSpaceOrHyphen))
       (Seq (Class isNonZeroDigit) (Times 9 (Class isDigit)))).

(** [phoneRegex.test(phone.replace(/[\s-]/g, ""))]. *)
Definition isValidMexicanPhone (phone : string) : bool :=
  test phoneRegex
    (unchars (List.filter (fun c => negb (isSpaceOrHyphen c)) (chars phone))).

(** *** isValidCreditCard *)

(** [parseInt(c)] for a digit [c]. *)
Definition digitValue (c : ascii) : Z := (Z.of_N (code c) - 48)%Z.

(** One turn of the loop on [digit]: doubled, and reduced by nine when
    above nine, at the even turns. *)
Definition luhnDigit (isEven : bool) (digit : Z) : Z :=
  if isEven then
    let digit := (digit * 2)%Z in
    if Z.ltb 9 digit then (digit - 9)%Z else digit
  else digit.

(** The loop, on the digits from the last to the first. *)
Fixpoint luhnLoop (fromLast : list ascii) (sum : Z) (isEven : bool) : Z :=
  match fromLast with
  | [] => sum
  | c :: rest => luhnLoop rest (sum + luhnDigit isEven (digitValue c))%Z (negb isEven)
  end.

Definition isValidCreditCard (cardNumber : string) : bool :=
  let cleanNumber := List.filter isDigit (chars cardNumber) in
  if Nat.ltb (length cleanNumber) 13 || Nat.ltb 19 (length cleanNumber) then false
  else Z.eqb (luhnLoop (rev cleanNumber) 0 false mod 10)%Z 0.

End Validators.

(** * Properties *)

(** ** Strings and rule lists *)

Lemma nonEmpty_true (s : string) : nonEmpty s = true ↔ s ≠ "".
Proof. destruct s; simpl; split; intros; congruence. Qed.

Lemma nonEmpty_false (s : string) : nonEmpty s = false ↔ s = "".
Proof. destruct s; simpl; split; intros; congruence. Qed.

Lemma runRules_all_pass (rules : list Rule) (value : JsVal) :
  Forall (fun rule => rule value = "") rules →
  runRules rules value = ("", length rules).
Proof.
  induction 1 as [|rule rest Hrule _ IH]; simpl; [done|].
  by rewrite Hrule, IH.
Qed.

Lemma runRules_first_error (pre post : list Rule) (rule : Rule) (value : JsVal) :
  Forall (fun r => r value = "") pre →
  rule value ≠ "" →
  runRules (pre ++ rule :: post) value = (rule value, S (length pre)).
Proof.
  intros Hpre Hrule. induction Hpre as [|r pre Hr _ IH]; simpl.
  - apply nonEmpty_true in Hrule. by rewrite Hrule.
  - by rewrite Hr, IH.
Qed.

(** The loop stops at some rule or runs through: its result is empty
    exactly when every rule accepts the value. *)
Lemma runRules_empty_iff (rules : list Rule) (value : JsVal) :
  (runRules rules value).1 = "" ↔ Forall (fun rule => rule value = "") rules.
Proof.
  induction rules as [|rule rest IH]; simpl.
  - split; [constructor | done].
  - destruct (nonEmpty (rule value)) eqn:E.
    + apply nonEmpty_true in E. simpl. split; [done|].
      intros H. by inversion H.
    + apply nonEmpty_false in E.
      destruct (runRules rest value) as [r n]. simpl in *.
      rewrite IH. split; [by constructor | intros H; by inversion H].
Qed.

Lemma requiredRule_empty (message : string) (value : JsVal) :
  truthy value = false → requiredRule message value = message.
Proof. intros H. unfold requiredRule. by rewrite H. Qed.

(** ** validateField *)

Section ValidateField.

Variable validationRules : gmap string (list Rule).

Lemma validateField_unregistered (name : string) (value : JsVal) :
  validationRules !! name = None → validateField validationRules name value = "".
Proof. intros H. unfold validateField. by rewrite H. Qed.

Lemma validateField_registered (name : string) (rules : list Rule) (value : JsVal) :
  validationRules !! name = Some rules →
  validateField validationRules name value = (runRules rules value).1.
Proof. intros H. unfold validateField. by rewrite H. Qed.

(** C1. A field without rules validates to the empty string. For a field
    with rules, the first rule (in list order) that returns a non-empty
    string gives the result, and the loop has then called exactly the rules
    up to and including that one, none of the later ones; when every rule
    returns the empty string the result is empty. In particular, a
    required-check at the head of the list gives its message on an empty
    value, whatever rules follow it. *)
Theorem validateField_first_error (name : string) (value : JsVal) :
  (validationRules !! name = None →
     validateField validationRules name value = "")
  ∧ (∀ pre rule post,
       validationRules !! name = Some (pre ++ rule :: post) →
       Forall (fun r => r value = "") pre →
       rule value ≠ "" →
       validateField validationRules name value = rule value
       ∧ (runRules (pre ++ rule :: post) value).2 = S (length pre))
  ∧ (∀ rules,
       validationRules !! name = Some rules →
       Forall (fun r => r value = "") rules →
       validateField validationRules name value = "")
  ∧ (∀ message rest,
       validationRules !! name = Some (requiredRule message :: rest) →
       message ≠ "" →
       truthy value = false →
       validateField validationRules name value = message).
Proof.
  split; [apply validateField_unregistered|].
  split; [|split].
  - intros pre rule post Hlook Hpre Hrule.
    rewrite (validateField_registered _ _ _ Hlook).
    by rewrite runRules_first_error.
  - intros rules Hlook Hall.
    rewrite (validateField_registered _ _ _ Hlook).
    by rewrite runRules_all_pass.
  - intros message rest Hlook Hmsg Hempty.
    rewrite (validateField_registered _ _ _ Hlook).
    pose proof (runRules_first_error [] rest (requiredRule message) value) as H.
    simpl app in H. rewrite H; [|constructor|]; by rewrite requiredRule_empty.
Qed.

End ValidateField.

Lemma validateField_first_error_witness :
  validateField sampleRules "bio" (JStr "x") = ""
  ∧ validateField sampleRules "email" (JStr "a") = "Email invalido"
  ∧ validateField requiredOnly "email" (JStr "a") = ""
  ∧ validateField sampleRules "email" (JStr "") = "Email es requerido".
Proof.
  destruct (validateField_first_error sampleRules "bio" (JStr "x")) as [H1 _].
  destruct (validateField_first_error sampleRules "email" (JStr "a"))
    as (_ & H2 & _).
  destruct (validateField_first_error requiredOnly "email" (JStr "a"))
    as (_ & _ & H3 & _).
  destruct (validateField_first_error sampleRules "email" (JStr ""))
    as (_ & _ & _ & H4).
  split; [apply H1; reflexivity|].
  split.
  { apply (H2 [requiredRule "Email es requerido"] (fun _ => "Email invalido") []).
    - reflexivity.
    - repeat constructor.
    - discriminate. }
  split.
  { apply (H3 [requiredRule "Email es requerido"]).
    - reflexivity.
    - repeat constructor. }
  apply (H4 "Email es requerido" [fun _ => "Email invalido"]).
  - reflexivity.
  - discriminate.
  - reflexivity.
Defined.

(** ** validateAll *)

Lemma objectKeys_elem {A} (m : gmap string A) (name : string) :
  name ∈ objectKeys m ↔ is_Some (m !! name).
Proof.
  unfold objectKeys. rewrite list_elem_of_fmap. split.
  - intros [[k a] [-> Hin]]. apply elem_of_map_to_list in Hin. by exists a.
  - intros [a Ha]. exists (name, a). split; [done|]. by apply elem_of_map_to_list.
Qed.

Lemma objectKeys_length_0 {A} (m : gmap string A) :
  Nat.eqb (length (objectKeys m)) 0 = true ↔ m = ∅.
Proof.
  unfold objectKeys. rewrite length_fmap, Nat.eqb_eq.
  rewrite <- map_to_list_empty_iff. by destruct (map_to_list m).
Qed.

Lemma elem_of_snoc_last (keys : list string) (k : string) : k ∈ keys ++ [k].
Proof. apply elem_of_app. right. by apply list_elem_of_singleton. Qed.

Lemma elem_of_snoc_other (keys : list string) (k name : string) :
  k ≠ name → name ∈ keys ++ [k] ↔ name ∈ keys.
Proof.
  intros Hne. rewrite elem_of_app, list_elem_of_singleton.
  split; [intros [H|H]; [done | congruence] | by left].
Qed.

Section ValidateAll.

Variable validationRules : gmap string (list Rule).

Lemma validateAllLoop_snoc (vs : gmap string JsVal) (keys : list string) (name : string) :
  validateAllLoop validationRules vs (keys ++ [name])
  = validateAllStep validationRules vs (validateAllLoop validationRules vs keys) name.
Proof. unfold validateAllLoop. by rewrite foldl_app. Qed.

Lemma validateAllLoop_touched (vs : gmap string JsVal) (keys : list string) (name : string) :
  (validateAllLoop validationRules vs keys).2 !! name
  = if decide (name ∈ keys) then Some true else None.
Proof.
  induction keys as [|k keys IH] using rev_ind.
  - unfold validateAllLoop. simpl. by rewrite lookup_empty.
  - rewrite validateAllLoop_snoc. unfold validateAllStep. simpl.
    destruct (decide (k = name)) as [->|Hne].
    + rewrite lookup_insert_eq. by rewrite decide_True by apply elem_of_snoc_last.
    + rewrite lookup_insert_ne by done. rewrite IH.
      apply decide_ext. symmetry. by apply elem_of_snoc_other.
Qed.

Lemma validateAllLoop_errors (vs : gmap string JsVal) (keys : list string) (name : string) :
  (validateAllLoop validationRules vs keys).1 !! name
  = if decide (name ∈ keys) then errorEntry validationRules vs name else None.
Proof.
  induction keys as [|k keys IH] using rev_ind.
  - unfold validateAllLoop. simpl. by rewrite lookup_empty.
  - rewrite validateAllLoop_snoc. unfold validateAllStep. simpl.
    destruct (decide (k = name)) as [->|Hne].
    + rewrite decide_True by apply elem_of_snoc_last. unfold errorEntry.
      destruct (nonEmpty _) eqn:E.
      * by rewrite lookup_insert_eq.
      * rewrite IH. case_decide; [|done]. unfold errorEntry. by rewrite E.
    + assert ((if nonEmpty (validateField validationRules k (readValue vs k))
               then <[k := validateField validationRules k (readValue vs k)]>
                      (validateAllLoop validationRules vs keys).1
               else (validateAllLoop validationRules vs keys).1) !! name
              = (validateAllLoop validationRules vs keys).1 !! name) as ->.
      { destruct (nonEmpty _); [by rewrite lookup_insert_ne | done]. }
      rewrite IH. apply decide_ext. symmetry. by apply elem_of_snoc_other.
Qed.

Lemma passTouched_loop (vs : gmap string JsVal) :
  (validateAllLoop validationRules vs (objectKeys validationRules)).2 = passTouched validationRules.
Proof.
  apply map_eq. intros name. rewrite validateAllLoop_touched.
  unfold passTouched. rewrite lookup_fmap.
  destruct (decide (name ∈ objectKeys validationRules)) as [H|H];
    rewrite objectKeys_elem in H.
  - destruct H as [rs ->]. done.
  - destruct (validationRules !! name) eqn:E; [|done]. exfalso. apply H. by eexists.
Qed.

Lemma passErrors_lookup (vs : gmap string JsVal) (name : string) :
  passErrors validationRules vs !! name
  = match validationRules !! name with
    | Some _ => errorEntry validationRules vs name
    | None => None
    end.
Proof.
  unfold passErrors. rewrite validateAllLoop_errors.
  destruct (decide (name ∈ objectKeys validationRules)) as [H|H];
    rewrite objectKeys_elem in H.
  - by destruct H as [rs ->].
  - destruct (validationRules !! name) eqn:E; [|done]. exfalso. apply H. by eexists.
Qed.

Lemma passErrors_Some (vs : gmap string JsVal) (name message : string) :
  passErrors validationRules vs !! name = Some message
  ↔ is_Some (validationRules !! name)
    ∧ validateField validationRules name (readValue vs name) = message
    ∧ message ≠ "".
Proof.
  rewrite passErrors_lookup. unfold errorEntry.
  destruct (validationRules !! name) as [rs|] eqn:E.
  - destruct (nonEmpty _) eqn:N.
    + apply nonEmpty_true in N. split.
      * intros [= <-]. eauto.
      * intros (_ & <- & _). done.
    + apply nonEmpty_false in N. split; [done|].
      intros (_ & <- & Hne). done.
  - split; [done|]. intros ([? ?] & _). done.
Qed.

(** What [validateAll] returns and leaves, in closed form. *)
Lemma validateAll_run (st : FormState) :
  validateAll validationRules st
  = (Ok (Nat.eqb (length (objectKeys (passErrors validationRules (values st)))) 0),
     mkFormState (values st) (passErrors validationRules (values st)) (passTouched validationRules)
       (isSubmitting st) (isDirty st),
     [SetTouched (passTouched validationRules); SetErrors (passErrors validationRules (values st))]).
Proof.
  unfold validateAll, bind, getValues. simpl.
  pose proof (passTouched_loop (values st)) as Ht.
  unfold passErrors.
  destruct (validateAllLoop validationRules (values st) (objectKeys validationRules))
    as [newErrors newTouched].
  simpl in *. by subst newTouched.
Qed.

Lemma validateAll_true_iff (st : FormState) :
  resultOf (validateAll validationRules st) = Ok true
  ↔ ∀ name, is_Some (validationRules !! name) →
        validateField validationRules name (readValue (values st) name) = "".
Proof.
  rewrite validateAll_run. unfold resultOf. simpl.
  split.
  - intros [= H]. apply objectKeys_length_0 in H.
    intros name Hreg.
    destruct (validateField validationRules name (readValue (values st) name)) eqn:E;
      [done|].
    assert (passErrors validationRules (values st) !! name
            = Some (validateField validationRules name (readValue (values st) name)))
      as Hl.
    { apply passErrors_Some. split; [done|]. split; [done|]. by rewrite E. }
    rewrite H, lookup_empty in Hl. done.
  - intros H. f_equal. apply objectKeys_length_0.
    apply map_eq. intros name. rewrite lookup_empty.
    destruct (passErrors validationRules (values st) !! name) as [m|] eqn:E; [|done].
    apply passErrors_Some in E as (Hreg & Hm & Hne).
    rewrite H in Hm by done. congruence.
Qed.

Lemma validateAll_result_bool (st : FormState) :
  ∃ b, resultOf (validateAll validationRules st) = Ok b.
Proof. rewrite validateAll_run. by eexists. Qed.

Lemma validateAll_false_iff (st : FormState) :
  resultOf (validateAll validationRules st) = Ok false
  ↔ ∃ name, is_Some (validationRules !! name)
        ∧ validateField validationRules name (readValue (values st) name) ≠ "".
Proof.
  destruct (validateAll_result_bool st) as [b Hb]. rewrite Hb.
  destruct b.
  - split; [done|]. intros (name & Hreg & Hne). exfalso. apply Hne.
    by apply validateAll_true_iff.
  - split; [|done]. intros _.
    rewrite validateAll_run in Hb. unfold resultOf in Hb. simpl in Hb.
    injection Hb as Hb.
    destruct (map_to_list (passErrors validationRules (values st))) as [|[name m] rest] eqn:E.
    + unfold objectKeys in Hb. rewrite E in Hb. done.
    + assert (passErrors validationRules (values st) !! name = Some m) as Hl.
      { apply elem_of_map_to_list. rewrite E. left. }
      apply passErrors_Some in Hl as (Hreg & Hm & Hne).
      exists name. split; [done|]. congruence.
Qed.

End ValidateAll.

(** C4. [validateAll] marks every field of [validationRules] as touched,
    touched before or not; it recomputes the error of every such field from
    the current values: the entry it leaves for a registered field is the
    message that the field's rules give for the value that [values] holds
    under its name ([undefined] when [values] has no such key), and there
    is no entry when that message is empty. It returns [true] exactly when
    the error mapping it leaves has no non-empty entry, which is exactly
    when the rules of every registered field accept the field's current
    value, and [false] exactly when the rules of at least one registered
    field give a non-empty message for it. It always returns a boolean and
    leaves [values] alone. *)
Theorem validateAll_marks_and_decides
    (validationRules : gmap string (list Rule)) (st : FormState) :
  let r := validateAll validationRules st in
  (∀ name, is_Some (validationRules !! name) →
     touched (stateOf r) !! name = Some true)
  ∧ (∀ name value,
       is_Some (validationRules !! name) →
       values st !! name = Some value →
       errors (stateOf r) !! name
       = if nonEmpty (validateField validationRules name value)
         then Some (validateField validationRules name value)
         else None)
  ∧ (∀ name,
       is_Some (validationRules !! name) →
       values st !! name = None →
       errors (stateOf r) !! name
       = if nonEmpty (validateField validationRules name JUndefined)
         then Some (validateField validationRules name JUndefined)
         else None)
  ∧ (resultOf r = Ok true
     ↔ ∀ name message, errors (stateOf r) !! name = Some message → message = "")
  ∧ (resultOf r = Ok true
     ↔ (∀ name value,
          is_Some (validationRules !! name) →
          values st !! name = Some value →
          validateField validationRules name value = "")
       ∧ (∀ name,
            is_Some (validationRules !! name) →
            values st !! name = None →
            validateField validationRules name JUndefined = ""))
  ∧ (resultOf r = Ok false
     ↔ ∃ name,
         is_Some (validationRules !! name)
         ∧ ((∃ value, values st !! name = Some value
                      ∧ validateField validationRules name value ≠ "")
            ∨ (values st !! name = None
               ∧ validateField validationRules name JUndefined ≠ "")))
  ∧ (∃ b, resultOf r = Ok b)
  ∧ values (stateOf r) = values st.
Proof.
  intros r. subst r.
  split; [|split; [|split; [|split; [|split; [|split; [|split]]]]]].
  - intros name [rs Hrs]. rewrite validateAll_run. unfold stateOf, passTouched. simpl.
    by rewrite lookup_fmap, Hrs.
  - intros name value [rs Hrs] Hv. rewrite validateAll_run. unfold stateOf. simpl.
    rewrite passErrors_lookup, Hrs. unfold errorEntry, readValue. by rewrite Hv.
  - intros name [rs Hrs] Hv. rewrite validateAll_run. unfold stateOf. simpl.
    rewrite passErrors_lookup, Hrs. unfold errorEntry, readValue. by rewrite Hv.
  - rewrite validateAll_true_iff. rewrite validateAll_run. unfold stateOf. simpl.
    split.
    + intros H name message Hl.
      apply passErrors_Some in Hl as (Hreg & Hm & Hne).
      rewrite H in Hm by done. congruence.
    + intros H name Hreg.
      destruct (nonEmpty (validateField validationRules name
                            (readValue (values st) name))) eqn:E.
      * apply nonEmpty_true in E.
        assert (passErrors validationRules (values st) !! name
                = Some (validateField validationRules name
                          (readValue (values st) name))) as Hl.
        { by apply passErrors_Some. }
        apply H in Hl. done.
      * by apply nonEmpty_false in E.
  - rewrite validateAll_true_iff. split.
    + intros H. split.
      * intros name value Hreg Hv. specialize (H name Hreg).
        unfold readValue in H. by rewrite Hv in H.
      * intros name Hreg Hv. specialize (H name Hreg).
        unfold readValue in H. by rewrite Hv in H.
    + intros [Hsome Hnone] name Hreg. unfold readValue.
      destruct (values st !! name) as [value|] eqn:Hv; simpl.
      * by apply (Hsome name).
      * by apply Hnone.
  - rewrite validateAll_false_iff. split.
    + intros (name & Hreg & Hne). exists name. split; [done|].
      unfold readValue in Hne.
      destruct (values st !! name) as [value|] eqn:Hv; simpl in Hne.
      * left. by exists value.
      * by right.
    + intros (name & Hreg & [(value & Hv & Hne)|[Hv Hne]]);
        exists name; (split; [done|]); unfold readValue; by rewrite Hv.
  - apply validateAll_result_bool.
  - by rewrite validateAll_run.
Qed.

Lemma validateAll_marks_and_decides_witness :
  touched (stateOf (validateAll sampleRules (initialState filledValues))) !! "terms"
    = Some true
  ∧ errors (stateOf (validateAll sampleRules (initialState filledValues))) !! "email"
    = Some "Email invalido"
  ∧ errors (stateOf (validateAll sampleRules (initialState filledValues))) !! "terms"
    = None
  ∧ errors (stateOf (validateAll sampleRules (initialState sampleValues))) !! "email"
    = Some "Email es requerido"
  ∧ errors (stateOf (validateAll sampleRules (initialState ∅))) !! "email"
    = Some "Email es requerido"
  ∧ resultOf (validateAll requiredOnly (initialState filledValues)) = Ok true
  ∧ resultOf (validateAll requiredOnly (initialState sampleValues)) = Ok false.
Proof.
  destruct (validateAll_marks_and_decides sampleRules (initialState filledValues))
    as (Ht & He & _).
  destruct (validateAll_marks_and_decides sampleRules (initialState sampleValues))
    as (_ & He' & _).
  destruct (validateAll_marks_and_decides sampleRules (initialState ∅))
    as (_ & _ & Hu & _).
  destruct (validateAll_marks_and_decides requiredOnly (initialState filledValues))
    as (_ & _ & _ & Hok & _).
  destruct (validateAll_marks_and_decides requiredOnly (initialState sampleValues))
    as (_ & _ & _ & _ & _ & Hbad & _).
  split; [apply Ht; eexists; reflexivity|].
  split; [rewrite (He "email" (JStr "a@b.c")); [reflexivity | eexists; reflexivity
                                               | reflexivity]|].
  split; [rewrite (He "terms" (JBool true)); [reflexivity | eexists; reflexivity
                                              | reflexivity]|].
  split; [rewrite (He' "email" (JStr "")); [reflexivity | eexists; reflexivity
                                            | reflexivity]|].
  split; [rewrite (Hu "email"); [reflexivity | eexists; reflexivity | reflexivity]|].
  split.
  - apply Hok. intros name message Hm. vm_compute in Hm. discriminate.
  - apply Hbad. exists "terms". split; [eexists; reflexivity|].
    left. exists (JBool false). split; [reflexivity | discriminate].
Defined.

(** ** handleSubmit *)

Section HandleSubmit.

Variable validationRules : gmap string (list Rule).

(** [handleSubmit] in closed form. *)
Lemma handleSubmit_run (onSubmit : SubmitCallback) (e : option DomEvent) (st : FormState) :
  handleSubmit validationRules onSubmit e st
  = (Ok tt,
     mkFormState (values st) (passErrors validationRules (values st))
       (passTouched validationRules) false (isDirty st),
     match e with Some _ => [PreventDefault] | None => [] end
     ++ [SetIsSubmitting true;
         SetTouched (passTouched validationRules);
         SetErrors (passErrors validationRules (values st))]
     ++ submitBranch onSubmit (values st)
          (Nat.eqb (length (objectKeys (passErrors validationRules (values st)))) 0)
     ++ [SetIsSubmitting false]).
Proof.
  unfold handleSubmit, submitBranch, bind, emit, ret, setIsSubmitting.
  destruct e; rewrite validateAll_run; simpl;
    destruct (Nat.eqb _ 0); simpl; try reflexivity;
    unfold tryCatch, bind, emit, liftRes, getValues; simpl;
    destruct (onSubmit (values st)) as [[]|reason]; reflexivity.
Qed.

End HandleSubmit.

(** C2. The handler that [handleSubmit(onSubmit)] returns calls [onSubmit]
    exactly when [validateAll()] returns [true], and then once, with the
    current [values]. In every case it writes [true] and then [false] to
    [isSubmitting] and nothing else, so that a form that was not submitting
    goes false, true, false; it makes none of the writes of [reset]
    ([values] and [isDirty] are as before), and it returns normally. *)
Theorem handleSubmit_calls_onSubmit_iff_valid
    (validationRules : gmap string (list Rule))
    (onSubmit : SubmitCallback) (e : option DomEvent) (st : FormState) :
  let r := handleSubmit validationRules onSubmit e st in
  let valid := resultOf (validateAll validationRules st) in
  (valid = Ok true → submitCalls (logOf r) = [values st])
  ∧ (valid = Ok false → submitCalls (logOf r) = [])
  ∧ (valid = Ok true ↔ ∃ vs, vs ∈ submitCalls (logOf r))
  ∧ submittingWrites (logOf r) = [true; false]
  ∧ (isSubmitting st = false →
       isSubmitting st :: submittingWrites (logOf r) = [false; true; false])
  ∧ isSubmitting (stateOf r) = false
  ∧ Forall (fun ev => isResetWrite ev = false) (logOf r)
  ∧ values (stateOf r) = values st
  ∧ isDirty (stateOf r) = isDirty st
  ∧ resultOf r = Ok tt.
Proof.
  intros r valid. subst r valid.
  rewrite handleSubmit_run, validateAll_run. unfold logOf, stateOf, resultOf. simpl.
  unfold submitBranch.
  destruct (Nat.eqb _ 0); destruct e; destruct (onSubmit (values st)) as [[]|reason];
    simpl; repeat split; intros; simplify_eq; try done;
    try (by repeat constructor);
    try (by eexists; left);
    try (by match goal with H : ∃ _, _ ∈ [] |- _ =>
              destruct H as [? H]; apply elem_of_nil in H end);
    try (by match goal with H : _ = false |- _ => rewrite H end).
Qed.

Lemma handleSubmit_calls_onSubmit_iff_valid_witness :
  submitCalls (logOf (handleSubmit requiredOnly passingSubmit (Some SubmitEvent)
                        (initialState filledValues))) = [filledValues]
  ∧ submitCalls (logOf (handleSubmit sampleRules passingSubmit (Some SubmitEvent)
                          (initialState sampleValues))) = []
  ∧ false :: submittingWrites
               (logOf (handleSubmit sampleRules passingSubmit (Some SubmitEvent)
                         (initialState sampleValues)))
    = [false; true; false].
Proof.
  split.
  { apply (handleSubmit_calls_onSubmit_iff_valid requiredOnly passingSubmit
             (Some SubmitEvent) (initialState filledValues)).
    vm_compute. reflexivity. }
  split.
  { apply (handleSubmit_calls_onSubmit_iff_valid sampleRules passingSubmit
             (Some SubmitEvent) (initialState sampleValues)).
    vm_compute. reflexivity. }
  apply (handleSubmit_calls_onSubmit_iff_valid sampleRules passingSubmit
           (Some SubmitEvent) (initialState sampleValues)).
  reflexivity.
Defined.

(** C5. When the form is valid and the submit callback fails, the handler
    catches the failure: it returns normally, it logs the reason with
    [console.error], the state it leaves is the state it leaves for any
    other callback (so [errors] is what the validation pass made it, with
    nothing added for the failure), and its last act is to write [false] to
    [isSubmitting]. *)
Theorem handleSubmit_swallows_failure
    (validationRules : gmap string (list Rule))
    (onSubmit : SubmitCallback) (e : option DomEvent) (st : FormState)
    (reason : JsVal) :
  resultOf (validateAll validationRules st) = Ok true →
  onSubmit (values st) = Throw reason →
  let r := handleSubmit validationRules onSubmit e st in
  resultOf r = Ok tt
  ∧ (∃ pre, logOf r = pre ++ [CallOnSubmit (values st); ConsoleError reason;
                                 SetIsSubmitting false]
            ∧ ∀ es, SetErrors es ∈ pre →
                    es = errors (stateOf (validateAll validationRules st)))
  ∧ errors (stateOf r) = errors (stateOf (validateAll validationRules st))
  ∧ (∀ onSubmit', stateOf r = stateOf (handleSubmit validationRules onSubmit' e st))
  ∧ isSubmitting (stateOf r) = false.
Proof.
  intros Hvalid Hfail r. subst r.
  rewrite validateAll_run in Hvalid. unfold resultOf in Hvalid. simpl in Hvalid.
  injection Hvalid as Hvalid.
  rewrite handleSubmit_run, validateAll_run. unfold logOf, stateOf, resultOf. simpl.
  unfold submitBranch. rewrite Hvalid, Hfail.
  split; [done|]. split; [|split; [done|split; [|done]]].
  - exists (match e with Some _ => [PreventDefault] | None => [] end
            ++ [SetIsSubmitting true;
                SetTouched (passTouched validationRules);
                SetErrors (passErrors validationRules (values st))]).
    split; [by rewrite <- app_assoc|].
    intros es Hes. apply elem_of_app in Hes as [Hes|Hes].
    + destruct e; [apply list_elem_of_singleton in Hes | apply elem_of_nil in Hes];
        done.
    + repeat (apply elem_of_cons in Hes as [Hes|Hes]; [congruence|]).
      by apply elem_of_nil in Hes.
  - intros onSubmit'. by rewrite handleSubmit_run.
Qed.

Lemma handleSubmit_swallows_failure_witness :
  resultOf (handleSubmit requiredOnly failingSubmit None (initialState filledValues))
    = Ok tt
  ∧ isSubmitting
      (stateOf (handleSubmit requiredOnly failingSubmit None (initialState filledValues)))
    = false.
Proof.
  destruct (handleSubmit_swallows_failure requiredOnly failingSubmit None
              (initialState filledValues) (JStr "network down"))
    as (H1 & _ & _ & _ & H2).
  - vm_compute. reflexivity.
  - reflexivity.
  - split; [exact H1 | exact H2].
Defined.

(** ** handleChange *)



Lemma isEvent_object (props : list (string * JsVal)) (target : JsVal) :
  lookupProp "target" props = Some target → isEvent (JObject props) = true.
Proof.
  intros H. unfold isEvent. simpl. rewrite H. apply bool_decide_eq_true. by eexists.
Qed.


Section HandleChange.

Variable validationRules : gmap string (list Rule).

(** [handleChange] in closed form, for an argument whose value can be
    taken. *)
Lemma handleChange_run (name : string) (p value : JsVal) (st : FormState) :
  payloadValue p = Ok value →
  handleChange validationRules name p st
  = (Ok tt,
     mkFormState (<[name := value]> (values st))
       (<[name := validateField validationRules name value]> (errors st))
       (<[name := true]> (touched st)) (isSubmitting st) true,
     [SetValues (<[name := value]> (values st));
      SetTouched (<[name := true]> (touched st));
      SetIsDirty true;
      SetErrors (<[name := validateField validationRules name value]> (errors st))]).
Proof.
  intros H. unfold handleChange, bind, liftRes. by rewrite H.
Qed.

(** When reading the argument throws, no setter has been called. *)
Lemma handleChange_throw (name : string) (p reason : JsVal) (st : FormState) :
  payloadValue p = Throw reason →
  handleChange validationRules name p st = (Throw reason, st, []).
Proof.
  intros H. unfold handleChange, bind, liftRes. by rewrite H.
Qed.


End HandleChange.


(** ** getFieldState *)

Lemma isTouched_true (ts : gmap string bool) (name : string) :
  isTouched ts name = true ↔ ts !! name = Some true.
Proof.
  unfold isTouched. destruct (ts !! name) as [[]|]; simpl; split; congruence.
Qed.

Lemma hasError_true (es : gmap string string) (name : string) :
  hasError es name = true ↔ ∃ message, es !! name = Some message ∧ message ≠ "".
Proof.
  unfold hasError. destruct (es !! name) as [m|].
  - rewrite nonEmpty_true. split.
    + intros H. by exists m.
    + intros (m' & [= <-] & H). done.
  - split; [done|]. intros (m' & H & _). done.
Qed.

(** C6, as stated, fails on the hook: a touched field without error whose
    value is empty is shown neutral, not success. *)
Lemma getFieldState_empty_value_counterexample :
  touched blurredBio !! "bio" = Some true
  ∧ hasError (errors blurredBio) "bio" = false
  ∧ fieldStateAsSpecified "" blurredBio "bio" = "success"
  ∧ getFieldState blurredBio "bio" = ""
  ∧ getFieldState blurredBio "bio" ≠ fieldStateAsSpecified "" blurredBio "bio".
Proof. vm_compute. repeat split; discriminate. Qed.

(** C6, amended. [getFieldState(name)] of the hook is neutral (the empty
    string) when [touched[name]] is not true; otherwise it is ["error"] when
    [errors[name]] is a non-empty string; otherwise it is ["success"] when
    [values[name]] is truthy and neutral when it is not. The shorter
    variant of the hook has no test on the value: there the state is
    ["neutral"], ["error"] or ["success"] by [touched] and [errors] alone. *)
Theorem getFieldState_cases (st : FormState) (name : string) :
  (touched st !! name ≠ Some true → getFieldState st name = "")
  ∧ (touched st !! name = Some true →
     (∃ message, errors st !! name = Some message ∧ message ≠ "") →
     getFieldState st name = "error")
  ∧ (touched st !! name = Some true →
     (∀ message, errors st !! name = Some message → message = "") →
     truthy (readValue (values st) name) = true →
     getFieldState st name = "success")
  ∧ (touched st !! name = Some true →
     (∀ message, errors st !! name = Some message → message = "") →
     truthy (readValue (values st) name) = false →
     getFieldState st name = "")
  ∧ Basic.getFieldState st name = fieldStateAsSpecified "neutral" st name.
Proof.
  unfold getFieldState.
  split; [|split; [|split; [|split]]].
  - intros H. rewrite <- isTouched_true in H. apply not_true_is_false in H.
    by rewrite H.
  - intros Ht He. apply isTouched_true in Ht. apply hasError_true in He.
    by rewrite Ht, He.
  - intros Ht He Hv. apply isTouched_true in Ht.
    assert (hasError (errors st) name = false) as ->.
    { apply not_true_is_false. rewrite hasError_true.
      intros (m & Hm & Hne). apply Hne. by apply He. }
    by rewrite Ht, Hv.
  - intros Ht He Hv. apply isTouched_true in Ht.
    assert (hasError (errors st) name = false) as ->.
    { apply not_true_is_false. rewrite hasError_true.
      intros (m & Hm & Hne). apply Hne. by apply He. }
    by rewrite Ht, Hv.
  - reflexivity.
Qed.

Lemma getFieldState_cases_witness :
  getFieldState (initialState sampleValues) "email" = ""
  ∧ getFieldState
      (stateOf (handleBlur sampleRules "email" (initialState sampleValues))) "email"
    = "error"
  ∧ getFieldState
      (stateOf (handleChange requiredOnly "email" (JStr "a@b.c")
                  (initialState sampleValues))) "email"
    = "success"
  ∧ getFieldState blurredBio "bio" = "".
Proof.
  split.
  { destruct (getFieldState_cases (initialState sampleValues) "email") as (H & _).
    apply H. vm_compute. discriminate. }
  split.
  { destruct (getFieldState_cases
                (stateOf (handleBlur sampleRules "email" (initialState sampleValues)))
                "email") as (_ & H & _).
    apply H.
    - vm_compute. reflexivity.
    - exists "Email es requerido". split; [vm_compute; reflexivity | discriminate]. }
  split.
  { destruct (getFieldState_cases
                (stateOf (handleChange requiredOnly "email" (JStr "a@b.c")
                            (initialState sampleValues))) "email")
      as (_ & _ & H & _).
    apply H.
    - vm_compute. reflexivity.
    - intros message Hm. vm_compute in Hm. congruence.
    - vm_compute. reflexivity. }
  destruct (getFieldState_cases blurredBio "bio") as (_ & _ & _ & H & _).
  apply H.
  - vm_compute. reflexivity.
  - intros message Hm. vm_compute in Hm. congruence.
  - vm_compute. reflexivity.
Defined.

(** ** reset, setFieldValue, setFieldError *)

(** C8. From any state, [reset] puts [values] back to the [initialValues]
    the hook was given, empties [errors] and [touched], and sets
    [isSubmitting] and [isDirty] to [false]: it leaves the state of the
    first render. *)
Theorem reset_restores_initial_state
    (initialValues : gmap string JsVal) (st : FormState) :
  let r := reset initialValues st in
  resultOf r = Ok tt
  ∧ values (stateOf r) = initialValues
  ∧ errors (stateOf r) = ∅
  ∧ touched (stateOf r) = ∅
  ∧ isSubmitting (stateOf r) = false
  ∧ isDirty (stateOf r) = false
  ∧ stateOf r = initialState initialValues.
Proof. repeat split. Qed.

(** C9. [setFieldValue(name, value)] stores [value] under [name] and sets
    [isDirty]; it leaves [errors], [touched] and [isSubmitting] as they
    were and calls no other setter, so no validation runs.
    [setFieldError(name, error)] stores [error] as the error of [name] and
    marks [name] touched; it leaves [values], [isDirty] and [isSubmitting]
    as they were. *)
Theorem setFieldValue_setFieldError_frame
    (name : string) (value : JsVal) (error : string) (st : FormState) :
  let rv := setFieldValue name value st in
  let re := setFieldError name error st in
  (values (stateOf rv) = <[name := value]> (values st)
   ∧ isDirty (stateOf rv) = true
   ∧ errors (stateOf rv) = errors st
   ∧ touched (stateOf rv) = touched st
   ∧ isSubmitting (stateOf rv) = isSubmitting st
   ∧ logOf rv = [SetValues (<[name := value]> (values st)); SetIsDirty true])
  ∧ (errors (stateOf re) = <[name := error]> (errors st)
     ∧ touched (stateOf re) = <[name := true]> (touched st)
     ∧ values (stateOf re) = values st
     ∧ isDirty (stateOf re) = isDirty st
     ∧ isSubmitting (stateOf re) = isSubmitting st
     ∧ logOf re = [SetErrors (<[name := error]> (errors st));
                   SetTouched (<[name := true]> (touched st))]).
Proof. repeat split. Qed.

(** ** What a validation pass leaves behind *)



(** ** Fields without rules *)

Lemma hasError_insert (es : gmap string string) (name f message : string) :
  hasError (<[name := message]> es) f
  = if decide (name = f) then nonEmpty message else hasError es f.
Proof.
  unfold hasError. rewrite lookup_insert. by destruct (decide (name = f)).
Qed.

Lemma handleBlur_run (validationRules : gmap string (list Rule))
    (name : string) (st : FormState) :
  handleBlur validationRules name st
  = (Ok tt,
     mkFormState (values st)
       (<[name := validateField validationRules name (readValue (values st) name)]>
          (errors st))
       (<[name := true]> (touched st)) (isSubmitting st) (isDirty st),
     [SetTouched (<[name := true]> (touched st));
      SetErrors
        (<[name := validateField validationRules name (readValue (values st) name)]>
           (errors st))]).
Proof. reflexivity. Qed.

Lemma Basic_handleChange_errors (validationRules : gmap string (list Rule))
    (name : string) (e : JsVal) (st : FormState) :
  errors (stateOf (Basic.handleChange validationRules name e st)) = errors st
  ∨ ∃ value,
      errors (stateOf (Basic.handleChange validationRules name e st))
      = <[name := validateField validationRules name value]> (errors st).
Proof.
  unfold Basic.handleChange, bind, liftRes.
  destruct (rbind _ _) as [value|reason]; [right; by exists value | by left].
Qed.

Lemma Basic_handleSubmit_state (validationRules : gmap string (list Rule))
    (onSubmit : SubmitCallback) (e : option DomEvent) (st : FormState) :
  stateOf (Basic.handleSubmit validationRules onSubmit e st)
  = mkFormState (values st) (passErrors validationRules (values st))
      (passTouched validationRules) false (isDirty st).
Proof.
  unfold Basic.handleSubmit, bind, emit, ret, setIsSubmitting.
  destruct e; rewrite validateAll_run; simpl;
    destruct (Nat.eqb _ 0); simpl; try reflexivity;
    unfold tryCatch, bind, emit, liftRes, getValues; simpl;
    destruct (onSubmit (values st)) as [[]|reason]; reflexivity.
Qed.

Section Unregistered.

Variable initialValues : gmap string JsVal.
Variable validationRules : gmap string (list Rule).
Variable f : string.
Hypothesis unregistered : validationRules !! f = None.

Lemma passErrors_unregistered (vs : gmap string JsVal) :
  hasError (passErrors validationRules vs) f = false.
Proof. unfold hasError. by rewrite passErrors_lookup, unregistered. Qed.

Lemma hasError_insert_validated (es : gmap string string) (name : string) (value : JsVal) :
  hasError es f = false →
  hasError (<[name := validateField validationRules name value]> es) f = false.
Proof.
  intros H. rewrite hasError_insert. destruct (decide (name = f)) as [->|]; [|done].
  by rewrite validateField_unregistered.
Qed.

Lemma runOp_keeps_no_error (op : Op) (st : FormState) :
  notSetFieldErrorOn f op →
  hasError (errors st) f = false →
  hasError (errors (runOp initialValues validationRules op st)) f = false.
Proof.
  intros Hop Hst. destruct op as [name p|name| |onSubmit e| |name value|name error];
    cbn [runOp].
  - destruct (payloadValue p) as [value|reason] eqn:Hp.
    + rewrite (handleChange_run _ _ _ _ _ Hp). unfold stateOf. simpl.
      by apply hasError_insert_validated.
    + by rewrite (handleChange_throw _ _ _ _ _ Hp).
  - rewrite handleBlur_run. unfold stateOf. simpl. by apply hasError_insert_validated.
  - rewrite validateAll_run. apply passErrors_unregistered.
  - rewrite handleSubmit_run. apply passErrors_unregistered.
  - reflexivity.
  - exact Hst.
  - unfold stateOf. simpl. rewrite hasError_insert.
    simpl in Hop. by rewrite decide_False.
Qed.

Lemma reachable_no_error (st : FormState) :
  Reachable initialValues validationRules (notSetFieldErrorOn f) st →
  hasError (errors st) f = false.
Proof.
  induction 1 as [|op st _ IH Hop]; [reflexivity|].
  by apply runOp_keeps_no_error.
Qed.

Lemma Basic_runOp_keeps_no_error (op : Basic.Op) (st : FormState) :
  hasError (errors st) f = false →
  hasError (errors (Basic.runOp initialValues validationRules op st)) f = false.
Proof.
  intros Hst. destruct op as [name e|name| |onSubmit e|]; cbn [Basic.runOp].
  - destruct (Basic_handleChange_errors validationRules name e st) as [->|[value ->]];
      [done | by apply hasError_insert_validated].
  - rewrite handleBlur_run. unfold stateOf. simpl. by apply hasError_insert_validated.
  - rewrite validateAll_run. apply passErrors_unregistered.
  - rewrite Basic_handleSubmit_state. apply passErrors_unregistered.
  - reflexivity.
Qed.

Lemma Basic_reachable_no_error (st : FormState) :
  Basic.Reachable initialValues validationRules st →
  hasError (errors st) f = false.
Proof.
  induction 1 as [|op st _ IH]; [reflexivity|].
  by apply Basic_runOp_keeps_no_error.
Qed.

Lemma passTouched_unregistered : isTouched (passTouched validationRules) f = false.
Proof. unfold isTouched, passTouched. by rewrite lookup_fmap, unregistered. Qed.

End Unregistered.

(** C7, as stated, fails: a field without rules that the user has changed
    is touched and shown as success, in both variants of the hook. *)
Lemma unregistered_field_success_counterexample :
  sampleRules !! "bio" = None
  ∧ Reachable sampleValues sampleRules (fun _ => True) typedBio
  ∧ getFieldState typedBio "bio" = "success"
  ∧ Basic.Reachable sampleValues sampleRules
      (Basic.runOp sampleValues sampleRules (Basic.OpBlur "bio")
         (initialState sampleValues))
  ∧ Basic.getFieldState
      (Basic.runOp sampleValues sampleRules (Basic.OpBlur "bio")
         (initialState sampleValues)) "bio"
    = "success".
Proof.
  split; [reflexivity|].
  split; [apply reach_step; [apply reach_init | exact I]|].
  split; [reflexivity|].
  split; [apply Basic.reach_step, Basic.reach_init | reflexivity].
Qed.

(** C7, amended. For a field [f] without rules, [validateField(f, v)] is
    empty for every [v]. In every state reached from the first render by
    the hook's operations, [setFieldError(f, _)] apart, [errors[f]] is
    empty or absent, so [getFieldState(f)] is never ["error"]; the same
    holds in the shorter variant. Right after a full validation pass
    ([validateAll] or a submit) [f] is not touched and its state is
    neutral. After [handleChange(f)] with a truthy value, and after
    [handleBlur(f)] on a truthy value, its state is ["success"]. *)
Theorem unregistered_field_never_error
    (initialValues : gmap string JsVal)
    (validationRules : gmap string (list Rule)) (f : string) :
  validationRules !! f = None →
  (∀ value, validateField validationRules f value = "")
  ∧ (∀ st, Reachable initialValues validationRules (notSetFieldErrorOn f) st →
       hasError (errors st) f = false ∧ getFieldState st f ≠ "error")
  ∧ (∀ st, Basic.Reachable initialValues validationRules st →
       hasError (errors st) f = false ∧ Basic.getFieldState st f ≠ "error")
  ∧ (∀ st onSubmit e,
       getFieldState (runOp initialValues validationRules OpValidateAll st) f = ""
       ∧ getFieldState
           (runOp initialValues validationRules (OpSubmit onSubmit e) st) f = ""
       ∧ Basic.getFieldState
           (Basic.runOp initialValues validationRules Basic.OpValidateAll st) f
         = "neutral"
       ∧ Basic.getFieldState
           (Basic.runOp initialValues validationRules (Basic.OpSubmit onSubmit e) st) f
         = "neutral")
  ∧ (∀ st p value,
       payloadValue p = Ok value → truthy value = true →
       getFieldState (runOp initialValues validationRules (OpChange f p) st) f
       = "success")
  ∧ (∀ st,
       truthy (readValue (values st) f) = true →
       getFieldState (runOp initialValues validationRules (OpBlur f) st) f
       = "success").
Proof.
  intros Hf.
  split; [intros value; by apply validateField_unregistered|].
  split; [|split; [|split; [|split]]].
  - intros st Hst. pose proof (reachable_no_error _ _ _ Hf _ Hst) as He.
    split; [done|]. unfold getFieldState. rewrite He.
    destruct (negb _); [done|]. by destruct (truthy _).
  - intros st Hst. pose proof (Basic_reachable_no_error _ _ _ Hf _ Hst) as He.
    split; [done|]. unfold Basic.getFieldState. rewrite He. by destruct (negb _).
  - intros st onSubmit e. cbn [runOp Basic.runOp].
    rewrite validateAll_run, handleSubmit_run, Basic_handleSubmit_state.
    unfold getFieldState, Basic.getFieldState, stateOf. simpl.
    by rewrite (passTouched_unregistered _ _ Hf).
  - intros st p value Hp Hv. cbn [runOp]. rewrite (handleChange_run _ _ _ _ _ Hp).
    unfold getFieldState, stateOf, isTouched, hasError, readValue. simpl.
    rewrite !lookup_insert_eq. simpl.
    by rewrite (validateField_unregistered _ _ _ Hf), Hv.
  - intros st Hv. cbn [runOp]. rewrite handleBlur_run.
    unfold getFieldState, stateOf, isTouched, hasError. simpl.
    rewrite !lookup_insert_eq. simpl.
    by rewrite (validateField_unregistered _ _ _ Hf), Hv.
Qed.

Lemma unregistered_field_never_error_witness :
  validateField sampleRules "bio" (JStr "hola") = ""
  ∧ getFieldState typedBio "bio" ≠ "error"
  ∧ getFieldState typedBio "bio" = "success".
Proof.
  destruct (unregistered_field_never_error sampleValues sampleRules "bio")
    as (Hv & Hr & _ & _ & Hc & _).
  - reflexivity.
  - split; [apply Hv|]. split.
    + apply Hr. unfold typedBio. apply reach_step; [apply reach_init | exact I].
    + unfold typedBio. apply (Hc _ _ (JStr "hola")); reflexivity.
Defined.

(** * More of the hook *)

(** ** Closed forms of the remaining operations *)

Lemma reset_run (initialValues : gmap string JsVal) (st : FormState) :
  stateOf (reset initialValues st) = initialState initialValues.
Proof. reflexivity. Qed.

Lemma setFieldValue_run (name : string) (value : JsVal) (st : FormState) :
  stateOf (setFieldValue name value st)
  = mkFormState (<[name := value]> (values st)) (errors st) (touched st)
      (isSubmitting st) true.
Proof. reflexivity. Qed.

Lemma setFieldError_run (name error : string) (st : FormState) :
  stateOf (setFieldError name error st)
  = mkFormState (values st) (<[name := error]> (errors st))
      (<[name := true]> (touched st)) (isSubmitting st) (isDirty st).
Proof. reflexivity. Qed.

Lemma readValue_insert (vs : gmap string JsVal) (name : string) (value : JsVal) :
  readValue (<[name := value]> vs) name = value.
Proof. unfold readValue. by rewrite lookup_insert_eq. Qed.

Lemma readValue_insert_ne (vs : gmap string JsVal) (name f : string) (value : JsVal) :
  name ≠ f → readValue (<[name := value]> vs) f = readValue vs f.
Proof. intros H. unfold readValue. by rewrite lookup_insert_ne. Qed.

Lemma isTouched_insert (ts : gmap string bool) (name f : string) :
  isTouched (<[name := true]> ts) f = if decide (name = f) then true else isTouched ts f.
Proof. unfold isTouched. rewrite lookup_insert. by destruct (decide (name = f)). Qed.

(** The state in which an operation leaves the form, case by case. *)
Ltac run_op op :=
  destruct op as [?name ?p|?name| |?onSubmit ?e| |?name ?value|?name ?error];
  cbn [runOp];
  [ let Hp := fresh "Hp" in
    destruct (payloadValue p) as [?value|?reason] eqn:Hp;
    [ rewrite (handleChange_run _ _ _ _ _ Hp)
    | rewrite (handleChange_throw _ _ _ _ _ Hp) ]
  | rewrite handleBlur_run
  | rewrite validateAll_run
  | rewrite handleSubmit_run
  | rewrite reset_run
  | rewrite setFieldValue_run
  | rewrite setFieldError_run ];
  unfold stateOf, initialState; cbn [fst snd values errors touched isSubmitting isDirty].

(** ** handleBlur *)




(** ** How the operations on one field compose *)

Section Compose.

Variable validationRules : gmap string (list Rule).

(** X2. Leaving a field right after changing it changes nothing more: the
    state after [handleChange(name)] then [handleBlur(name)] is the state
    after [handleChange(name)] alone. Leaving a field twice is the same as
    leaving it once. *)
Theorem handleBlur_after_change_is_noop
    (name : string) (p value : JsVal) (st : FormState) :
  payloadValue p = Ok value →
  stateOf (handleBlur validationRules name
             (stateOf (handleChange validationRules name p st)))
  = stateOf (handleChange validationRules name p st)
  ∧ stateOf (handleBlur validationRules name
               (stateOf (handleBlur validationRules name st)))
    = stateOf (handleBlur validationRules name st).
Proof.
  intros Hp. rewrite (handleChange_run _ _ _ _ _ Hp), !handleBlur_run.
  unfold stateOf. cbn [fst snd values errors touched isSubmitting isDirty].
  by rewrite readValue_insert, !insert_insert_eq.
Qed.

(** X3. The last change of a field wins: two changes of one field leave the
    state of the second alone. Changes of two different fields commute. *)
Theorem handleChange_last_write_wins
    (name other : string) (p1 p2 v1 v2 : JsVal) (st : FormState) :
  payloadValue p1 = Ok v1 →
  payloadValue p2 = Ok v2 →
  stateOf (handleChange validationRules name p2
             (stateOf (handleChange validationRules name p1 st)))
  = stateOf (handleChange validationRules name p2 st)
  ∧ (name ≠ other →
     stateOf (handleChange validationRules name p1
                (stateOf (handleChange validationRules other p2 st)))
     = stateOf (handleChange validationRules other p2
                  (stateOf (handleChange validationRules name p1 st)))).
Proof.
  intros H1 H2.
  rewrite !(handleChange_run _ _ _ _ _ H1), !(handleChange_run _ _ _ _ _ H2).
  unfold stateOf. cbn [fst snd values errors touched isSubmitting isDirty].
  split.
  - by rewrite !insert_insert_eq.
  - intros Hne. f_equal; by apply insert_insert_ne.
Qed.

(** X4. [setFieldValue] runs no validation, and what a following
    [handleBlur(name)] validates is the value its own render captured. The
    blur function of the render that follows [setFieldValue(name, value)]
    leaves the state that [handleChange(name)] leaves for that value. The
    blur function of the render in which [setFieldValue] was called, run
    with no render in between, stores the validation of the old value
    while [values[name]] is the new one: the stored error is stale whenever
    the two validations differ. *)
Theorem setFieldValue_then_blur_validates_render_value
    (name : string) (p value : JsVal) (st : FormState) :
  payloadValue p = Ok value →
  let st1 := stateOf (setFieldValue name value st) in
  let old := default JUndefined (values st !! name) in
  handleBlurFrom validationRules st1 name st1 = handleBlur validationRules name st1
  ∧ stateOf (handleBlurFrom validationRules st1 name st1)
    = stateOf (handleChange validationRules name p st)
  ∧ stateOf (handleBlurFrom validationRules st name st1)
    = mkFormState (<[name := value]> (values st))
        (<[name := validateField validationRules name old]> (errors st))
        (<[name := true]> (touched st)) (isSubmitting st) true
  ∧ (validateField validationRules name old ≠ validateField validationRules name value →
     errors (stateOf (handleBlurFrom validationRules st name st1)) !! name
     ≠ Some (validateField validationRules name value)
     ∧ stateOf (handleBlurFrom validationRules st name st1)
       ≠ stateOf (handleChange validationRules name p st)).
Proof.
  intros Hp st1 old. subst st1 old.
  rewrite (handleChange_run _ _ _ _ _ Hp), setFieldValue_run.
  split; [reflexivity|]. split.
  { unfold handleBlurFrom, bind, updTouched, updErrors, stateOf.
    cbn [fst snd values errors touched isSubmitting isDirty].
    by rewrite readValue_insert. }
  split; [reflexivity|].
  intros Hne.
  unfold handleBlurFrom, bind, updTouched, updErrors, stateOf, readValue.
  cbn [fst snd values errors touched isSubmitting isDirty].
  split.
  - rewrite lookup_insert_eq. congruence.
  - intros Heq. apply (f_equal (fun s => errors s !! name)) in Heq.
    cbn [errors] in Heq. rewrite !lookup_insert_eq in Heq. congruence.
Qed.

(** X5. An error set with [setFieldError(name, error)] shows at once (the
    field state is ["error"] when the message is non-empty) and lasts until
    the field is validated again: after [handleBlur(name)],
    [handleChange(name)] or [validateAll], [errors] is what it would be
    without the call to [setFieldError]. *)
Theorem setFieldError_lasts_until_validation
    (name error : string) (p value : JsVal) (st : FormState) :
  let st1 := stateOf (setFieldError name error st) in
  (error ≠ "" → getFieldState st1 name = "error")
  ∧ errors (stateOf (handleBlur validationRules name st1))
    = errors (stateOf (handleBlur validationRules name st))
  ∧ (payloadValue p = Ok value →
     errors (stateOf (handleChange validationRules name p st1))
     = errors (stateOf (handleChange validationRules name p st)))
  ∧ errors (stateOf (validateAll validationRules st1))
    = errors (stateOf (validateAll validationRules st)).
Proof.
  intros st1. subst st1. rewrite setFieldError_run.
  split; [|split; [|split]].
  - intros Hne. unfold getFieldState, isTouched, hasError. simpl.
    rewrite !lookup_insert_eq. simpl. apply nonEmpty_true in Hne. by rewrite Hne.
  - rewrite !handleBlur_run. unfold stateOf. simpl. by rewrite insert_insert_eq.
  - intros Hp. rewrite !(handleChange_run _ _ _ _ _ Hp). unfold stateOf. simpl.
    by rewrite insert_insert_eq.
  - by rewrite !validateAll_run.
Qed.

End Compose.

Lemma handleBlur_after_change_is_noop_witness :
  stateOf (handleBlur sampleRules "email"
             (stateOf (handleChange sampleRules "email" (JStr "a")
                         (initialState sampleValues))))
  = stateOf (handleChange sampleRules "email" (JStr "a") (initialState sampleValues)).
Proof.
  destruct (handleBlur_after_change_is_noop sampleRules "email" (JStr "a") (JStr "a")
              (initialState sampleValues)) as [H _].
  - reflexivity.
  - exact H.
Defined.

Lemma handleChange_last_write_wins_witness :
  stateOf (handleChange sampleRules "email" (inputEvent "email" false "ab")
             (stateOf (handleChange sampleRules "email" (JStr "a")
                         (initialState sampleValues))))
  = stateOf (handleChange sampleRules "email" (inputEvent "email" false "ab")
               (initialState sampleValues)).
Proof.
  destruct (handleChange_last_write_wins sampleRules "email" "bio"
              (JStr "a") (inputEvent "email" false "ab") (JStr "a") (JStr "ab")
              (initialState sampleValues)) as [H _].
  - reflexivity.
  - reflexivity.
  - exact H.
Defined.

Lemma setFieldValue_then_blur_validates_render_value_witness :
  errors (stateOf (handleBlurFrom sampleRules (initialState sampleValues) "email"
                     (stateOf (setFieldValue "email" (JStr "a")
                                 (initialState sampleValues))))) !! "email"
  ≠ Some (validateField sampleRules "email" (JStr "a")).
Proof.
  destruct (setFieldValue_then_blur_validates_render_value sampleRules "email"
              (JStr "a") (JStr "a") (initialState sampleValues))
    as (_ & _ & _ & H).
  - reflexivity.
  - apply H. vm_compute. discriminate.
Defined.

Lemma setFieldError_lasts_until_validation_witness :
  getFieldState (stateOf (setFieldError "bio" "taken" (initialState sampleValues))) "bio"
  = "error".
Proof.
  destruct (setFieldError_lasts_until_validation sampleRules "bio" "taken"
              (JStr "x") (JStr "x") (initialState sampleValues)) as (H & _).
  apply H. discriminate.
Defined.

(** ** isValid *)

Lemma objectKeys_nonempty {A} (m : gmap string A) :
  Nat.ltb 0 (length (objectKeys m)) = true ↔ m ≠ ∅.
Proof.
  rewrite Nat.ltb_lt, <- objectKeys_length_0, Nat.eqb_eq. lia.
Qed.

Lemma isValid_true_iff (st : FormState) :
  isValid st = true
  ↔ (∀ name, hasError (errors st) name = false) ∧ touched st ≠ ∅.
Proof.
  unfold isValid. rewrite andb_true_iff, objectKeys_nonempty, forallb_forall.
  split; intros [He Ht]; (split; [|done]).
  - intros name. destruct (errors st !! name) as [m|] eqn:E.
    + apply negb_true_iff, He, list_elem_of_In, objectKeys_elem. by eexists.
    + unfold hasError. by rewrite E.
  - intros name _. by rewrite He.
Qed.

(** X6. [isValid] is [true] exactly when some field is touched and no
    field has a non-empty error. So it is [false] on the first render and
    after [reset], whatever the values are, and when it is [true] no field
    is in the ["error"] state. *)
Theorem isValid_needs_touched_and_no_error
    (initialValues : gmap string JsVal) (st : FormState) :
  (isValid st = true
   ↔ (∀ name message, errors st !! name = Some message → message = "")
     ∧ ∃ name, is_Some (touched st !! name))
  ∧ isValid (initialState initialValues) = false
  ∧ isValid (stateOf (reset initialValues st)) = false
  ∧ (isValid st = true → ∀ name, getFieldState st name ≠ "error").
Proof.
  split; [|split; [|split]].
  - rewrite isValid_true_iff. split; intros [He Ht]; split.
    + intros name message Hm. specialize (He name). unfold hasError in He.
      rewrite Hm in He. by apply nonEmpty_false.
    + destruct (map_choose _ Ht) as (name & b & Hb). exists name. by eexists.
    + intros name. unfold hasError. destruct (errors st !! name) as [m|] eqn:E; [|done].
      apply nonEmpty_false. by apply (He name).
    + destruct Ht as (name & b & Hb). intros Hempty.
      by rewrite Hempty, lookup_empty in Hb.
  - reflexivity.
  - reflexivity.
  - intros Hv name. apply isValid_true_iff in Hv as [He _].
    unfold getFieldState. rewrite He.
    destruct (negb _); [done|]. by destruct (truthy _).
Qed.

Lemma isValid_needs_touched_and_no_error_witness :
  getFieldState
    (stateOf (handleChange requiredOnly "email" (JStr "a@b.c")
                (initialState sampleValues))) "terms"
  ≠ "error".
Proof.
  destruct (isValid_needs_touched_and_no_error sampleValues
              (stateOf (handleChange requiredOnly "email" (JStr "a@b.c")
                          (initialState sampleValues)))) as (_ & _ & _ & H).
  apply H. vm_compute. reflexivity.
Defined.

(** X7. After [validateAll], and after a submit, [isValid] is [true]
    exactly when the pass found the form valid and [validationRules] has at
    least one field; with no rules at all the pass returns [true] while
    [isValid] stays [false]. *)
Theorem isValid_after_validation_pass
    (validationRules : gmap string (list Rule))
    (onSubmit : SubmitCallback) (e : option DomEvent) (st : FormState) :
  (isValid (stateOf (validateAll validationRules st)) = true
   ↔ resultOf (validateAll validationRules st) = Ok true ∧ validationRules ≠ ∅)
  ∧ isValid (stateOf (handleSubmit validationRules onSubmit e st))
    = isValid (stateOf (validateAll validationRules st))
  ∧ (validationRules = ∅ →
     resultOf (validateAll validationRules st) = Ok true
     ∧ isValid (stateOf (validateAll validationRules st)) = false).
Proof.
  assert (isValid (stateOf (validateAll validationRules st)) = true
          ↔ resultOf (validateAll validationRules st) = Ok true ∧ validationRules ≠ ∅)
    as Hiff.
  { rewrite isValid_true_iff, validateAll_true_iff, validateAll_run.
    unfold stateOf. simpl. unfold passTouched. rewrite fmap_empty_iff.
    split; intros [He Ht]; (split; [|done]).
    - intros name Hreg.
      specialize (He name). unfold hasError in He.
      rewrite passErrors_lookup in He. destruct Hreg as [rs Hrs]. rewrite Hrs in He.
      unfold errorEntry in He.
      destruct (nonEmpty (validateField validationRules name (readValue (values st) name)))
        eqn:E; [simpl in He; congruence|]. by apply nonEmpty_false.
    - intros name. unfold hasError. rewrite passErrors_lookup.
      destruct (validationRules !! name) as [rs|] eqn:Hrs; [|done].
      unfold errorEntry. rewrite He by (by eexists). done. }
  split; [exact Hiff|]. split.
  - rewrite handleSubmit_run, validateAll_run. reflexivity.
  - intros Hempty. split.
    + apply validateAll_true_iff. intros name [rs Hrs].
      by rewrite Hempty, lookup_empty in Hrs.
    + apply not_true_is_false. rewrite Hiff. intros [_ Hne]. done.
Qed.

Lemma isValid_after_validation_pass_witness :
  resultOf (validateAll ∅ (initialState sampleValues)) = Ok true
  ∧ isValid (stateOf (validateAll ∅ (initialState sampleValues))) = false.
Proof.
  destruct (isValid_after_validation_pass ∅ passingSubmit None
              (initialState sampleValues)) as (_ & _ & H).
  apply H. reflexivity.
Defined.

(** ** Invariants of the reachable states *)

Lemma passTouched_lookup (validationRules : gmap string (list Rule)) (name : string) :
  passTouched validationRules !! name = (fun _ => true) <$> validationRules !! name.
Proof. unfold passTouched. by rewrite lookup_fmap. Qed.

Lemma passErrors_touched (validationRules : gmap string (list Rule))
    (vs : gmap string JsVal) (name : string) :
  is_Some (passErrors validationRules vs !! name) →
  passTouched validationRules !! name = Some true.
Proof.
  intros [m Hm]. apply passErrors_Some in Hm as ([rs Hrs] & _).
  by rewrite passTouched_lookup, Hrs.
Qed.

Section Invariants.

Variable initialValues : gmap string JsVal.
Variable validationRules : gmap string (list Rule).

Lemma reachable_errors_touched (st : FormState) :
  Reachable initialValues validationRules anyOp st →
  ∀ name, is_Some (errors st !! name) → touched st !! name = Some true.
Proof.
  induction 1 as [|op st _ IH _].
  - intros name [m Hm]. simpl in Hm. by rewrite lookup_empty in Hm.
  - intros f. run_op op; try apply IH.
    + rewrite !lookup_insert. destruct (decide (name = f)); [done | apply IH].
    + rewrite !lookup_insert. destruct (decide (name = f)); [done | apply IH].
    + apply passErrors_touched.
    + apply passErrors_touched.
    + intros [m Hm]. by rewrite lookup_empty in Hm.
    + rewrite !lookup_insert. destruct (decide (name = f)); [done | apply IH].
Qed.

Lemma reachable_idle_and_dirty (st : FormState) :
  Reachable initialValues validationRules anyOp st →
  isSubmitting st = false ∧ (isDirty st = false → values st = initialValues).
Proof.
  induction 1 as [|op st _ [IHs IHd] _]; [done|].
  run_op op; done.
Qed.

End Invariants.

Lemma getIconColor_red (state : string) :
  getIconColor state = "text-red-500" ↔ state = "error".
Proof.
  unfold getIconColor. destruct (String.eqb state "error") eqn:E.
  - apply String.eqb_eq in E. done.
  - apply String.eqb_neq in E. destruct (String.eqb state "success"); split; done.
Qed.

(** X8. In every state the hook's operations can reach, a field that has
    an entry in [errors] is touched. So the input component shows the
    error text of a field exactly when the field state is ["error"], which
    is exactly when its icon is red. *)
Theorem reachable_error_text_iff_error_state
    (initialValues : gmap string JsVal)
    (validationRules : gmap string (list Rule)) (st : FormState) (name : string) :
  Reachable initialValues validationRules anyOp st →
  (is_Some (errors st !! name) → touched st !! name = Some true)
  ∧ (showsErrorText st name = true ↔ getFieldState st name = "error")
  ∧ (showsErrorText st name = true
     ↔ getIconColor (getFieldState st name) = "text-red-500").
Proof.
  intros Hst. pose proof (reachable_errors_touched _ _ _ Hst name) as Ht.
  split; [exact Ht|].
  assert (showsErrorText st name = true ↔ getFieldState st name = "error") as Hiff.
  { unfold showsErrorText, getFieldState. split.
    - intros He. rewrite He.
      assert (isTouched (touched st) name = true) as ->; [|done].
      apply isTouched_true, Ht. apply hasError_true in He as (m & Hm & _). by eexists.
    - destruct (negb _); [done|]. destruct (hasError _ _); [done|].
      by destruct (truthy _). }
  split; [exact Hiff|]. by rewrite getIconColor_red.
Qed.

Lemma reachable_error_text_iff_error_state_witness :
  showsErrorText typedBio "bio" = true ↔ getFieldState typedBio "bio" = "error".
Proof.
  apply (reachable_error_text_iff_error_state sampleValues sampleRules typedBio "bio").
  unfold typedBio. apply reach_step; [apply reach_init | exact I].
Defined.

(** X9. After every completed operation [isSubmitting] is [false], and a
    form whose [isDirty] is [false] holds the initial values. *)
Theorem reachable_idle_and_clean_is_initial
    (initialValues : gmap string JsVal)
    (validationRules : gmap string (list Rule)) (st : FormState) :
  Reachable initialValues validationRules anyOp st →
  isSubmitting st = false ∧ (isDirty st = false → values st = initialValues).
Proof. apply reachable_idle_and_dirty. Qed.

Lemma reachable_idle_and_clean_is_initial_witness :
  isSubmitting typedBio = false.
Proof.
  apply (reachable_idle_and_clean_is_initial sampleValues sampleRules typedBio).
  unfold typedBio. apply reach_step; [apply reach_init | exact I].
Defined.

(** ** More on validateField, validateAll and handleSubmit *)

Lemma runRules_result_from_rule (rules : list Rule) (value : JsVal) :
  (runRules rules value).1 ≠ "" →
  ∃ rule, rule ∈ rules ∧ rule value = (runRules rules value).1.
Proof.
  induction rules as [|rule rest IH]; simpl; [done|].
  destruct (nonEmpty (rule value)) eqn:E.
  - intros _. exists rule. split; [left | done].
  - destruct (runRules rest value) as [r n]. simpl in *. intros Hr.
    destruct (IH Hr) as (rule' & Hin & Heq). exists rule'. split; [by right | done].
Qed.

Lemma runRules_calls_bound (rules : list Rule) (value : JsVal) :
  ((runRules rules value).2 ≤ length rules)%nat.
Proof.
  induction rules as [|rule rest IH]; simpl; [done|].
  destruct (nonEmpty (rule value)); simpl; [lia|].
  destruct (runRules rest value) as [r n]. simpl in *. lia.
Qed.

(** X11. [validateField] never makes up a message: a non-empty result is
    what one of the field's own rules returns for the value. The result is
    empty exactly when the field has no rules or every rule of it accepts
    the value, and the loop calls at most as many rules as the list has. *)
Theorem validateField_message_comes_from_a_rule
    (validationRules : gmap string (list Rule)) (name : string) (value : JsVal) :
  (validateField validationRules name value ≠ "" →
   ∃ rules rule,
     validationRules !! name = Some rules
     ∧ rule ∈ rules
     ∧ rule value = validateField validationRules name value)
  ∧ (validateField validationRules name value = ""
     ↔ validationRules !! name = None
       ∨ ∃ rules, validationRules !! name = Some rules
                  ∧ Forall (fun rule => rule value = "") rules)
  ∧ (∀ rules, validationRules !! name = Some rules →
       ((runRules rules value).2 ≤ length rules)%nat).
Proof.
  unfold validateField. destruct (validationRules !! name) as [rules|] eqn:E.
  - split; [|split].
    + intros Hne. destruct (runRules_result_from_rule _ _ Hne) as (rule & Hin & Heq).
      by exists rules, rule.
    + rewrite runRules_empty_iff. split.
      * intros H. right. by exists rules.
      * intros [H|(rules' & [= <-] & H)]; done.
    + intros rules' [= <-]. apply runRules_calls_bound.
  - split; [done|]. split; [|done]. split; [by left | done].
Qed.

Lemma validateField_message_comes_from_a_rule_witness :
  ∃ rules rule,
    sampleRules !! "email" = Some rules
    ∧ rule ∈ rules
    ∧ rule (JStr "a") = validateField sampleRules "email" (JStr "a").
Proof.
  apply (validateField_message_comes_from_a_rule sampleRules "email" (JStr "a")).
  vm_compute. discriminate.
Defined.



(** ** Edge cases of handleChange *)

(** X13. An event-like object whose [target] is [null] or [undefined]
    makes [handleChange] throw a TypeError before it calls any setter: the
    state is unchanged and nothing is logged. A [target] that is a
    primitive gives the value [undefined]. *)
Theorem handleChange_null_target_throws
    (validationRules : gmap string (list Rule)) (name : string)
    (props : list (string * JsVal)) (target : JsVal) (st : FormState) :
  lookupProp "target" props = Some target →
  (target = JNull ∨ target = JUndefined →
   handleChange validationRules name (JObject props) st = (Throw TypeError, st, []))
  ∧ ((∃ b, target = JBool b) ∨ (∃ n, target = JNum n) ∨ (∃ s, target = JStr s) →
     payloadValue (JObject props) = Ok JUndefined
     ∧ values (stateOf (handleChange validationRules name (JObject props) st))
       = <[name := JUndefined]> (values st)).
Proof.
  intros Ht. split.
  - intros Hnull. apply handleChange_throw. unfold payloadValue.
    rewrite (isEvent_object _ _ Ht). simpl. rewrite Ht. simpl.
    by destruct Hnull as [-> | ->].
  - intros Hprim.
    assert (payloadValue (JObject props) = Ok JUndefined) as Hp.
    { unfold payloadValue. rewrite (isEvent_object _ _ Ht). simpl. rewrite Ht. simpl.
      by destruct Hprim as [[b ->]|[[n ->]|[s ->]]]. }
    split; [exact Hp|]. by rewrite (handleChange_run _ _ _ _ _ Hp).
Qed.

Lemma handleChange_null_target_throws_witness :
  handleChange sampleRules "email" (JObject [("target", JNull)])
    (initialState sampleValues)
  = (Throw TypeError, initialState sampleValues, []).
Proof.
  destruct (handleChange_null_target_throws sampleRules "email" [("target", JNull)]
              JNull (initialState sampleValues)) as (H & _).
  - reflexivity.
  - apply H. by left.
Defined.

(** ** The shorter variant against the hook *)


Lemma Basic_handleSubmit_run (validationRules : gmap string (list Rule))
    (onSubmit : SubmitCallback) (e : option DomEvent) (st : FormState) :
  Basic.handleSubmit validationRules onSubmit e st
  = (Ok tt,
     mkFormState (values st) (passErrors validationRules (values st))
       (passTouched validationRules) false (isDirty st),
     match e with Some _ => [PreventDefault] | None => [] end
     ++ [SetIsSubmitting true;
         SetTouched (passTouched validationRules);
         SetErrors (passErrors validationRules (values st))]
     ++ List.filter (fun ev => negb (isFocusEffect ev))
          (submitBranch onSubmit (values st)
             (Nat.eqb (length (objectKeys (passErrors validationRules (values st)))) 0))
     ++ [SetIsSubmitting false]).
Proof.
  unfold Basic.handleSubmit, submitBranch, bind, emit, ret, setIsSubmitting.
  destruct e; rewrite validateAll_run; simpl;
    destruct (Nat.eqb _ 0); simpl; try reflexivity;
    unfold tryCatch, bind, emit, liftRes, getValues; simpl;
    destruct (onSubmit (values st)) as [[]|reason]; reflexivity.
Qed.



(** X15. The two variants submit alike: for the same callback, event and
    state, the shorter [handleSubmit] leaves the same state and returns
    normally like the hook's, and its log is the hook's log without the
    deferred focus on the first field in error, which the hook schedules
    exactly when the form is invalid. *)
Theorem Basic_handleSubmit_agrees
    (validationRules : gmap string (list Rule))
    (onSubmit : SubmitCallback) (e : option DomEvent) (st : FormState) :
  let rb := Basic.handleSubmit validationRules onSubmit e st in
  let rh := handleSubmit validationRules onSubmit e st in
  stateOf rb = stateOf rh
  ∧ resultOf rb = resultOf rh
  ∧ logOf rb = List.filter (fun ev => negb (isFocusEffect ev)) (logOf rh)
  ∧ submitCalls (logOf rb) = submitCalls (logOf rh)
  ∧ (ScheduleFocusFirstError ∈ logOf rh
     ↔ resultOf (validateAll validationRules st) = Ok false).
Proof.
  intros rb rh. subst rb rh.
  rewrite Basic_handleSubmit_run, handleSubmit_run, validateAll_run.
  unfold stateOf, resultOf, logOf, submitBranch. simpl.
  destruct (Nat.eqb _ 0); destruct e; destruct (onSubmit (values st)) as [[]|reason];
    simpl; repeat split; try done;
    try (intros H; repeat (apply elem_of_cons in H as [H|H]; [done|]);
         by apply elem_of_nil in H);
    try (intros _; repeat (first [by left | right])).
Qed.

(** * The validators *)

(** ** Strings *)

Lemma unchars_chars (s : string) : Validators.unchars (Validators.chars s) = s.
Proof. apply String.string_of_list_ascii_of_string. Qed.

Lemma chars_unchars (cs : list ascii) : Validators.chars (Validators.unchars cs) = cs.
Proof. apply String.list_ascii_of_string_of_list_ascii. Qed.

Lemma unchars_empty (cs : list ascii) : Validators.unchars cs = "" ↔ cs = [].
Proof. destruct cs; simpl; split; congruence. Qed.

Lemma chars_length (s : string) : length (Validators.chars s) = String.length s.
Proof. induction s as [|c s IH]; simpl; [done | by rewrite IH]. Qed.

Lemma dropWhile_nil_iff {A} (p : A → bool) (l : list A) :
  Validators.dropWhile p l = [] ↔ forallb p l = true.
Proof.
  induction l as [|x l IH]; simpl; [done|].
  destruct (p x); simpl; [exact IH | split; congruence].
Qed.

Lemma dropWhile_forallb {A} (p : A → bool) (l : list A) :
  forallb p (Validators.dropWhile p l) = forallb p l.
Proof.
  induction l as [|x l IH]; simpl; [done|].
  destruct (p x) eqn:E; simpl; [exact IH | by rewrite E].
Qed.

Lemma forallb_rev {A} (p : A → bool) (l : list A) :
  forallb p (rev l) = forallb p l.
Proof.
  induction l as [|x l IH]; simpl; [done|].
  rewrite forallb_app, IH. simpl. rewrite andb_true_r. apply andb_comm.
Qed.

Lemma trim_empty_iff (s : string) :
  Validators.trim s = "" ↔ Validators.isBlank s = true.
Proof.
  unfold Validators.trim, Validators.trimChars, Validators.isBlank.
  rewrite unchars_empty.
  rewrite <- (dropWhile_forallb _ (Validators.chars s)).
  rewrite <- (forallb_rev _ (Validators.dropWhile _ _)).
  rewrite <- dropWhile_nil_iff.
  split; intros H.
  - apply (f_equal (@rev ascii)) in H. by rewrite rev_involutive in H.
  - by rewrite H.
Qed.

Lemma isBlank_head (c : ascii) (s : string) :
  Validators.isWhiteSpace c = false → Validators.isBlank (String c s) = false.
Proof. intros H. unfold Validators.isBlank. simpl. by rewrite H. Qed.

Lemma pretty_N_char_not_space (x : N) :
  Validators.isWhiteSpace (pretty_N_char x) = false.
Proof. unfold pretty_N_char. by repeat case_match. Qed.

Lemma pretty_N_go_head (x : N) (s : string) :
  (0 < x)%N →
  ∃ c t, pretty_N_go x s = String c t ∧ Validators.isWhiteSpace c = false.
Proof.
  revert s. induction (N.lt_wf_0 x) as [x _ IH]. intros s Hx.
  rewrite pretty_N_go_step by done.
  destruct (decide (x `div` 10 = 0)%N) as [Hz|Hz].
  - rewrite Hz, pretty_N_go_0. eexists _, _. split; [done|].
    apply pretty_N_char_not_space.
  - apply IH; [by apply N.div_lt | by apply N.neq_0_lt_0].
Qed.

Lemma pretty_Z_head (n : Z) :
  ∃ c t, pretty n = String c t ∧ Validators.isWhiteSpace c = false.
Proof.
  destruct n as [|p|p]; unfold pretty, pretty_Z.
  - by eexists _, _.
  - unfold pretty, pretty_positive, pretty, pretty_N.
    rewrite decide_False by done. apply pretty_N_go_head. lia.
  - by eexists _, _.
Qed.

(** ** isRequired and the length rules *)

Lemma isRequired_string (s : string) :
  Validators.isRequired (JStr s) = Ok (negb (Validators.isBlank s)).
Proof.
  unfold Validators.isRequired. simpl. do 2 f_equal.
  destruct (Validators.isBlank s) eqn:E.
  - apply trim_empty_iff in E. by rewrite E.
  - apply String.eqb_neq. rewrite trim_empty_iff. congruence.
Qed.

(** X16. [isRequired] rejects [null], [undefined] and the strings of white
    space only (the empty string among them), and nothing else among the
    values a field holds: it accepts [false], every number ([0] too) and
    every file list, the empty one too. It is not the [!value] check of
    the hook's documentation, which rejects [false] and [0] and accepts a
    string of spaces. *)
Theorem isRequired_rejects_only_missing_and_blank :
  Validators.isRequired JNull = Ok false
  ∧ Validators.isRequired JUndefined = Ok false
  ∧ (∀ s, Validators.isRequired (JStr s) = Ok (negb (Validators.isBlank s)))
  ∧ (∀ b, Validators.isRequired (JBool b) = Ok true)
  ∧ (∀ n, Validators.isRequired (JNum n) = Ok true)
  ∧ (∀ names, Validators.isRequired (JFileList names) = Ok true)
  ∧ (∀ s, s ≠ "" → Validators.isBlank s = true →
       truthy (JStr s) = true ∧ Validators.isRequired (JStr s) = Ok false)
  ∧ (∀ value, Validators.isRequired value = Ok false →
       value = JNull ∨ value = JUndefined
       ∨ ∃ s, value = JStr s ∧ Validators.isBlank s = true).
Proof.
  assert (∀ n, Validators.isRequired (JNum n) = Ok true) as Hnum.
  { intros n. unfold Validators.isRequired. simpl.
    destruct (pretty_Z_head n) as (c & t & -> & Hc). do 2 f_equal.
    apply negb_true_iff, String.eqb_neq. rewrite trim_empty_iff.
    by rewrite isBlank_head. }
  split; [done|]. split; [done|]. split; [apply isRequired_string|].
  split; [by intros []|]. split; [exact Hnum|]. split; [done|]. split.
  - intros s Hs Hb. split; [by destruct s|]. by rewrite isRequired_string, Hb.
  - intros value H. destruct value as [| |b|n|s|names|props].
    + by right; left.
    + by left.
    + by destruct b.
    + by rewrite Hnum in H.
    + right; right. exists s. split; [done|].
      rewrite isRequired_string in H. injection H as H. by apply negb_false_iff.
    + done.
    + unfold Validators.isRequired in H. simpl in H.
      by destruct (lookupProp "toString" props).
Qed.

Lemma isRequired_rejects_only_missing_and_blank_witness :
  truthy (JStr "  ") = true ∧ Validators.isRequired (JStr "  ") = Ok false.
Proof.
  destruct isRequired_rejects_only_missing_and_blank as (_ & _ & _ & _ & _ & _ & H & _).
  apply H; [discriminate | reflexivity].
Defined.

Lemma orDefault_nonEmpty (message : option string) (fallback : string) :
  fallback ≠ "" → Validators.orDefault message fallback ≠ "".
Proof.
  intros Hf. unfold Validators.orDefault. destruct message as [m|]; [|done].
  destruct (nonEmpty m) eqn:E; [by apply nonEmpty_true | done].
Qed.

Lemma truthy_string (s : string) : truthy (JStr s) = nonEmpty s.
Proof. reflexivity. Qed.

Lemma createMinLengthRule_string (minLength : Z) (message : option string) (s : string) :
  s ≠ "" →
  Validators.createMinLengthRule minLength message (JStr s)
  = Ok (if Z.ltb (Z.of_nat (String.length s)) minLength
        then Validators.orDefault message
               ("Debe tener al menos " +:+ pretty minLength +:+ " caracteres")
        else "").
Proof.
  intros Hs. unfold Validators.createMinLengthRule, Validators.hasMinLength.
  rewrite truthy_string. apply nonEmpty_true in Hs. rewrite Hs. simpl.
  rewrite Z.ltb_antisym. by destruct (Z.leb _ _).
Qed.

Lemma createMaxLengthRule_string (maxLength : Z) (message : option string) (s : string) :
  s ≠ "" →
  Validators.createMaxLengthRule maxLength message (JStr s)
  = Ok (if Z.ltb maxLength (Z.of_nat (String.length s))
        then Validators.orDefault message
               ("No debe exceder " +:+ pretty maxLength +:+ " caracteres")
        else "").
Proof.
  intros Hs. unfold Validators.createMaxLengthRule, Validators.hasMaxLength.
  rewrite truthy_string. apply nonEmpty_true in Hs. rewrite Hs. simpl.
  rewrite Z.ltb_antisym. by destruct (Z.leb _ _).
Qed.

(** X17. The length rules only constrain a value that is there: the rules
    made by [createMinLengthRule] and [createMaxLengthRule] accept every
    falsy value (the empty string, [null], [undefined], [0], [false]). On a
    non-empty string the first accepts exactly the strings of at least
    [minLength] characters and the second exactly those of at most
    [maxLength], and a rejection always carries a non-empty message, the
    caller's or the default one. *)
Theorem length_rules_accept_empty_and_bound_strings
    (minLength maxLength : Z) (minMessage maxMessage : option string) :
  (∀ value, truthy value = false →
     Validators.createMinLengthRule minLength minMessage value = Ok ""
     ∧ Validators.createMaxLengthRule maxLength maxMessage value = Ok "")
  ∧ (∀ s, s ≠ "" →
       (Validators.createMinLengthRule minLength minMessage (JStr s) = Ok ""
        ↔ (minLength ≤ Z.of_nat (String.length s))%Z)
       ∧ (Validators.createMaxLengthRule maxLength maxMessage (JStr s) = Ok ""
          ↔ (Z.of_nat (String.length s) ≤ maxLength)%Z)
       ∧ (∃ message,
            Validators.createMinLengthRule minLength minMessage (JStr s) = Ok message
            ∧ (message = "" ∨ message
                 = Validators.orDefault minMessage
                     ("Debe tener al menos " +:+ pretty minLength +:+ " caracteres"))))
  ∧ Validators.orDefault minMessage
      ("Debe tener al menos " +:+ pretty minLength +:+ " caracteres") ≠ ""
  ∧ Validators.orDefault maxMessage
      ("No debe exceder " +:+ pretty maxLength +:+ " caracteres") ≠ "".
Proof.
  split; [|split; [|split]].
  - intros value Hv. unfold Validators.createMinLengthRule,
      Validators.createMaxLengthRule, Validators.hasMaxLength. by rewrite Hv.
  - intros s Hs.
    rewrite (createMinLengthRule_string _ _ _ Hs), (createMaxLengthRule_string _ _ _ Hs).
    pose proof (orDefault_nonEmpty minMessage
      ("Debe tener al menos " +:+ pretty minLength +:+ " caracteres")) as Hmin.
    pose proof (orDefault_nonEmpty maxMessage
      ("No debe exceder " +:+ pretty maxLength +:+ " caracteres")) as Hmax.
    split; [|split].
    + destruct (Z.ltb_spec (Z.of_nat (String.length s)) minLength) as [Hlt|Hge].
      * split; [intros [= H]; by apply Hmin in H | lia].
      * split; [done | done].
    + destruct (Z.ltb_spec maxLength (Z.of_nat (String.length s))) as [Hlt|Hge].
      * split; [intros [= H]; by apply Hmax in H | lia].
      * split; [done | done].
    + eexists. split; [done|]. destruct (Z.ltb _ _); [by right | by left].
  - by apply orDefault_nonEmpty.
  - by apply orDefault_nonEmpty.
Qed.

Lemma length_rules_accept_empty_and_bound_strings_witness :
  Validators.createMinLengthRule 2 None (JStr "") = Ok ""
  ∧ (Validators.createMinLengthRule 2 None (JStr "Jo") = Ok ""
     ↔ (2 ≤ Z.of_nat (String.length "Jo"))%Z).
Proof.
  destruct (length_rules_accept_empty_and_bound_strings 2 10 None None) as (H1 & H2 & _).
  split.
  - apply (H1 (JStr "")). reflexivity.
  - apply (H2 "Jo"). discriminate.
Defined.

(** ** The documented rule list in the hook *)

(** X18. For a field whose rules are a required rule followed by a
    minimum-length rule, as [createRequiredRule] and [createMinLengthRule]
    make them, [validateField] on a string gives the required message when
    the string is blank, the length message when it is not blank and too
    short, and the empty string otherwise. After [handleChange] with such a
    string the field state is ["success"] in the last case and ["error"] in
    the other two. *)
Theorem required_then_minLength_on_strings
    (validationRules : gmap string (list Rule)) (name : string)
    (required shortest : Rule) (requiredMessage : string)
    (minLength : Z) (minMessage : option string) (s : string) (st : FormState) :
  validationRules !! name = Some [required; shortest] →
  Validators.behavesAs required (Validators.createRequiredRule (Some requiredMessage)) →
  Validators.behavesAs shortest (Validators.createMinLengthRule minLength minMessage) →
  requiredMessage ≠ "" →
  let expected :=
    if Validators.isBlank s then requiredMessage
    else if Z.ltb (Z.of_nat (String.length s)) minLength
         then Validators.orDefault minMessage
                ("Debe tener al menos " +:+ pretty minLength +:+ " caracteres")
         else "" in
  validateField validationRules name (JStr s) = expected
  ∧ getFieldState (stateOf (handleChange validationRules name (JStr s) st)) name
    = (if nonEmpty expected then "error" else "success").
Proof.
  intros Hrules Hreq Hmin Hmsg expected.
  assert (validateField validationRules name (JStr s) = expected) as Hv.
  { subst expected. rewrite (validateField_registered _ _ _ _ Hrules). simpl.
    rewrite (Hreq (JStr s) (if Validators.isBlank s then requiredMessage else ""));
      [|unfold Validators.createRequiredRule; rewrite isRequired_string; simpl;
        by destruct (Validators.isBlank s)].
    destruct (Validators.isBlank s) eqn:Hb.
    - apply nonEmpty_true in Hmsg. by rewrite Hmsg.
    - simpl.
      assert (s ≠ "") as Hs by (intros ->; done).
      rewrite (Hmin _ _ (createMinLengthRule_string minLength minMessage s Hs)).
      destruct (nonEmpty _) eqn:E; [done|].
      destruct (runRules [] (JStr s)) eqn:R. simpl in *. injection R as <- _.
      by apply nonEmpty_false in E. }
  split; [exact Hv|].
  assert (payloadValue (JStr s) = Ok (JStr s)) as Hp by (by destruct s).
  rewrite (handleChange_run _ _ _ _ _ Hp).
  unfold getFieldState, stateOf, isTouched, hasError, readValue. simpl.
  rewrite !lookup_insert_eq. simpl. rewrite Hv.
  destruct (nonEmpty expected) eqn:E; [done|].
  assert (s ≠ "") as Hs; [|by destruct s].
  subst expected. destruct (Validators.isBlank s) eqn:Hb.
  - apply nonEmpty_true in Hmsg. congruence.
  - intros ->. done.
Qed.

Lemma required_then_minLength_on_strings_witness :
  validateField
    {[ "name" := [Validators.asRule (Validators.createRequiredRule (Some "El nombre es requerido"));
                  Validators.asRule (Validators.createMinLengthRule 2 None)] ]}
    "name" (JStr "J")
  = "Debe tener al menos 2 caracteres".
Proof.
  apply (required_then_minLength_on_strings
           {[ "name" := [Validators.asRule
                           (Validators.createRequiredRule (Some "El nombre es requerido"));
                         Validators.asRule (Validators.createMinLengthRule 2 None)] ]}
           "name"
           (Validators.asRule (Validators.createRequiredRule (Some "El nombre es requerido")))
           (Validators.asRule (Validators.createMinLengthRule 2 None))
           "El nombre es requerido" 2 None "J" (initialState sampleValues)).
  - reflexivity.
  - intros value result H. unfold Validators.asRule. by rewrite H.
  - intros value result H. unfold Validators.asRule. by rewrite H.
  - discriminate.
Defined.

(** ** validatePassword *)

Lemma pushIf_chain (t1 t2 t3 t4 t5 : bool) (m1 m2 m3 m4 m5 : string) :
  let errs :=
    Validators.pushIf t5 m5 (Validators.pushIf t4 m4 (Validators.pushIf t3 m3
      (Validators.pushIf t2 m2 (Validators.pushIf t1 m1 [])))) in
  (Nat.eqb (length errs) 0 = true ↔ errs = [])
  ∧ (errs = [] ↔ t1 = false ∧ t2 = false ∧ t3 = false ∧ t4 = false ∧ t5 = false)
  ∧ (Nat.eqb (length errs) 0 = false →
     ∃ m, errs !! 0%nat = Some m ∧ m ∈ [m1; m2; m3; m4; m5])
  ∧ (t1 = true → errs !! 0%nat = Some m1)
  ∧ (length errs ≤ 5)%nat.
Proof.
  intros errs. subst errs.
  destruct t1, t2, t3, t4, t5; cbn [Validators.pushIf app].
  all: split; [done|].
  all: split; [split; [by intros; repeat split | by intros (?&?&?&?&?)]|].
  all: split;
    [simpl; first
       [done
       | intros _; eexists; split;
         [reflexivity
         | repeat (first [apply list_elem_of_here | apply list_elem_of_further])]]|].
  all: split; [done|].
  all: simpl; lia.
Qed.

Lemma flag_test_false (flag test : bool) :
  flag && negb test = false ↔ (flag = true → test = true).
Proof. destruct flag, test; simpl; split; try done; intros H; by specialize (H eq_refl). Qed.

(** X19. [validatePassword] reports a password valid exactly when its list
    of errors is empty, which is exactly when the password has at least
    [minLength] characters (8 by default) and one character of every class
    that is required (all four by default). When it is not valid,
    [errors[0]] is a non-empty string, so a rule that returns
    [validation.isValid ? "" : validation.errors[0]] returns the empty
    string for valid passwords only; a password that is too short gets the
    length message first. There are never more than five errors. *)
Theorem validatePassword_valid_iff_criteria
    (password : string) (options : Validators.PasswordOptions) :
  let r := Validators.validatePassword password options in
  let minLength := default 8%Z (Validators.minLength options) in
  let needs (flag : option bool) (class : ascii → bool) : Prop :=
    default true flag = true → Validators.testClass class password = true in
  (Validators.isValid r = true ↔ Validators.errors r = [])
  ∧ (Validators.isValid r = true
     ↔ (minLength ≤ Z.of_nat (String.length password))%Z
       ∧ needs (Validators.requireUppercase options) Validators.isUpper
       ∧ needs (Validators.requireLowercase options) Validators.isLower
       ∧ needs (Validators.requireNumbers options) Validators.isDigit
       ∧ needs (Validators.requireSpecialChars options) Validators.isSpecial)
  ∧ (Validators.isValid r = false →
     ∃ message, Validators.firstError r = JStr message ∧ message ≠ "")
  ∧ ((Z.of_nat (String.length password) < minLength)%Z →
     Validators.firstError r
     = JStr ("Debe tener al menos " +:+ pretty minLength +:+ " caracteres"))
  ∧ (length (Validators.errors r) ≤ 5)%nat.
Proof.
  intros r minLength needs. subst r needs.
  unfold Validators.validatePassword, Validators.firstError. fold minLength.
  cbn [Validators.isValid Validators.errors].
  match goal with
  | |- context [Validators.pushIf ?t5 ?m5 (Validators.pushIf ?t4 ?m4
         (Validators.pushIf ?t3 ?m3 (Validators.pushIf ?t2 ?m2
            (Validators.pushIf ?t1 ?m1 [])))) ] =>
      pose proof (pushIf_chain t1 t2 t3 t4 t5 m1 m2 m3 m4 m5) as Hchain;
      cbv zeta in Hchain;
      set (errs := Validators.pushIf t5 m5 (Validators.pushIf t4 m4
         (Validators.pushIf t3 m3 (Validators.pushIf t2 m2
            (Validators.pushIf t1 m1 []))))) in *
  end.
  destruct Hchain as (Hnil & Hall & Hfirst & Hlen & Hfive).
  split; [exact Hnil|]. split; [|split; [|split; [|exact Hfive]]].
  - rewrite Hnil, Hall, !flag_test_false, Z.ltb_ge. done.
  - intros Hinvalid. destruct (Hfirst Hinvalid) as (m & Hm & Hin).
    destruct errs as [|m' rest]; [done|]. injection Hm as ->.
    exists m. split; [done|].
    repeat (apply elem_of_cons in Hin as [->|Hin]; [done|]).
    by apply elem_of_nil in Hin.
  - intros Hshort. apply Z.ltb_lt in Hshort. specialize (Hlen Hshort).
    destruct errs as [|m' rest]; [done|]. by injection Hlen as ->.
Qed.

Lemma validatePassword_valid_iff_criteria_witness :
  Validators.firstError (Validators.validatePassword "abc" Validators.pageOptions)
  = JStr "Debe tener al menos 6 caracteres".
Proof.
  destruct (validatePassword_valid_iff_criteria "abc" Validators.pageOptions)
    as (_ & _ & _ & H & _).
  apply H. reflexivity.
Defined.

(** ** isValidCreditCard *)

Lemma chars_app (s1 s2 : string) :
  Validators.chars (s1 +:+ s2) = Validators.chars s1 ++ Validators.chars s2.
Proof. induction s1 as [|c s1 IH]; simpl; [done|]. unfold Validators.chars in *. simpl. by rewrite IH. Qed.

Lemma filter_none {A} (p : A → bool) (l : list A) :
  forallb (fun x => negb (p x)) l = true → List.filter p l = [].
Proof.
  induction l as [|x l IH]; simpl; [done|].
  destruct (p x); simpl; [done | exact IH].
Qed.

Lemma luhnLoop_sum (l : list ascii) (sum : Z) (isEven : bool) :
  Validators.luhnLoop l sum isEven = (sum + Validators.luhnLoop l 0 isEven)%Z.
Proof.
  revert sum isEven. induction l as [|c l IH]; intros sum isEven; simpl; [lia|].
  rewrite IH, (IH (0 + _)%Z). lia.
Qed.

Lemma luhnLoop_app (l1 l2 : list ascii) (sum : Z) (isEven : bool) :
  Validators.luhnLoop (l1 ++ l2) sum isEven
  = Validators.luhnLoop l2 (Validators.luhnLoop l1 sum isEven)
      (xorb isEven (Nat.odd (length l1))).
Proof.
  revert sum isEven. induction l1 as [|c l1 IH]; intros sum isEven.
  - simpl. by rewrite xorb_false_r.
  - cbn [app Validators.luhnLoop length]. rewrite IH. f_equal.
    rewrite Nat.odd_succ, <- Nat.negb_odd. by destruct isEven, (Nat.odd (length l1)).
Qed.

Lemma digitValue_range (c : ascii) :
  Validators.isDigit c = true → (0 ≤ Validators.digitValue c ≤ 9)%Z.
Proof.
  unfold Validators.isDigit, Validators.inRange, Validators.digitValue.
  intros H. apply andb_true_iff in H as [H1 H2].
  apply N.leb_le in H1, H2. change (Validators.code "0") with 48%N in H1.
  change (Validators.code "9") with 57%N in H2. lia.
Qed.

Lemma digitValue_inj (c1 c2 : ascii) :
  Validators.digitValue c1 = Validators.digitValue c2 → c1 = c2.
Proof.
  unfold Validators.digitValue, Validators.code. intros H.
  assert (N_of_ascii c1 = N_of_ascii c2) as HN by lia.
  by rewrite <- (ascii_N_embedding c1), <- (ascii_N_embedding c2), HN.
Qed.

Lemma luhnDigit_distinct (isEven : bool) (x y : Z) :
  (0 ≤ x ≤ 9)%Z → (0 ≤ y ≤ 9)%Z → x ≠ y →
  ((Validators.luhnDigit isEven x - Validators.luhnDigit isEven y) mod 10 ≠ 0)%Z.
Proof.
  intros Hx Hy Hne. unfold Validators.luhnDigit.
  destruct isEven; [|Z.div_mod_to_equations; lia].
  destruct (Z.ltb_spec 9 (x * 2)), (Z.ltb_spec 9 (y * 2));
    Z.div_mod_to_equations; lia.
Qed.

Lemma luhn_total_split (l1 l2 : list ascii) (c : ascii) :
  Validators.luhnLoop (l1 ++ c :: l2) 0 false
  = (Validators.luhnLoop l1 0 false
     + Validators.luhnDigit (Nat.odd (length l1)) (Validators.digitValue c)
     + Validators.luhnLoop l2 0 (negb (Nat.odd (length l1))))%Z.
Proof.
  rewrite luhnLoop_app. cbn [Validators.luhnLoop xorb].
  rewrite (luhnLoop_sum l2). lia.
Qed.

Lemma cleanNumber_app (s1 s2 : string) :
  List.filter Validators.isDigit (Validators.chars (s1 +:+ s2))
  = List.filter Validators.isDigit (Validators.chars s1)
    ++ List.filter Validators.isDigit (Validators.chars s2).
Proof. by rewrite chars_app, List.filter_app. Qed.

Lemma isValidCreditCard_by_digits (s1 s2 : string) :
  List.filter Validators.isDigit (Validators.chars s1)
  = List.filter Validators.isDigit (Validators.chars s2) →
  Validators.isValidCreditCard s1 = Validators.isValidCreditCard s2.
Proof. intros H. unfold Validators.isValidCreditCard. by rewrite H. Qed.

(** X20. [isValidCreditCard] looks at the digits of its argument only:
    characters that are not digits (spaces, hyphens, letters) can be put
    anywhere or left out without changing the answer. A number with fewer
    than 13 or more than 19 digits is rejected whatever its digits are. *)
Theorem isValidCreditCard_ignores_separators :
  (∀ before separators after,
     forallb (fun c => negb (Validators.isDigit c)) (Validators.chars separators) = true →
     Validators.isValidCreditCard (before +:+ separators +:+ after)
     = Validators.isValidCreditCard (before +:+ after))
  ∧ (∀ cardNumber,
       (length (List.filter Validators.isDigit (Validators.chars cardNumber)) < 13
        ∨ 19 < length (List.filter Validators.isDigit (Validators.chars cardNumber)))%nat →
       Validators.isValidCreditCard cardNumber = false).
Proof.
  split.
  - intros before separators after Hsep. apply isValidCreditCard_by_digits.
    rewrite !cleanNumber_app. by rewrite (filter_none _ _ Hsep).
  - intros cardNumber Hlen. unfold Validators.isValidCreditCard.
    destruct Hlen as [Hlen|Hlen].
    + apply Nat.ltb_lt in Hlen. by rewrite Hlen.
    + apply Nat.ltb_lt in Hlen. rewrite Hlen. by rewrite orb_true_r.
Qed.

Lemma isValidCreditCard_ignores_separators_witness :
  Validators.isValidCreditCard ("4532" +:+ " " +:+ "015112830366")
  = Validators.isValidCreditCard ("4532" +:+ "015112830366").
Proof.
  destruct isValidCreditCard_ignores_separators as [H _].
  apply (H "4532" " " "015112830366"). reflexivity.
Defined.

Lemma cleanNumber_around (before after : string) (d : ascii) :
  Validators.isDigit d = true →
  rev (List.filter Validators.isDigit (Validators.chars (before +:+ String d after)))
  = rev (List.filter Validators.isDigit (Validators.chars after))
    ++ d :: rev (List.filter Validators.isDigit (Validators.chars before)).
Proof.
  intros Hd. rewrite cleanNumber_app.
  change (Validators.chars (String d after)) with (d :: Validators.chars after).
  cbn [List.filter]. rewrite Hd, rev_app_distr. cbn [rev]. by rewrite <- app_assoc.
Qed.

(** X21. The check of [isValidCreditCard] catches every mistyped digit:
    replacing one digit of a number it accepts by a different digit gives a
    number it rejects. *)
Theorem isValidCreditCard_detects_single_digit_error
    (before after : string) (d d' : ascii) :
  Validators.isDigit d = true →
  Validators.isDigit d' = true →
  d ≠ d' →
  Validators.isValidCreditCard (before +:+ String d after) = true →
  Validators.isValidCreditCard (before +:+ String d' after) = false.
Proof.
  intros Hd Hd' Hne. unfold Validators.isValidCreditCard.
  assert (length (List.filter Validators.isDigit
                    (Validators.chars (before +:+ String d' after)))
          = length (List.filter Validators.isDigit
                      (Validators.chars (before +:+ String d after)))) as ->.
  { rewrite <- !(length_rev (List.filter _ _)), !cleanNumber_around by done.
    rewrite !length_app. done. }
  destruct (_ || _); [done|].
  rewrite !cleanNumber_around, !luhn_total_split by done.
  intros Hvalid. apply Z.eqb_eq in Hvalid. apply Z.eqb_neq.
  pose proof (luhnDigit_distinct
                (Nat.odd (length (rev (List.filter Validators.isDigit
                                         (Validators.chars after)))))
                _ _ (digitValue_range _ Hd) (digitValue_range _ Hd')) as Hdist.
  assert (Validators.digitValue d ≠ Validators.digitValue d') as Hv.
  { intros H. by apply Hne, digitValue_inj. }
  specialize (Hdist Hv). revert Hvalid Hdist.
  generalize (Validators.luhnLoop
                (rev (List.filter Validators.isDigit (Validators.chars after))) 0 false).
  generalize (Validators.luhnLoop
                (rev (List.filter Validators.isDigit (Validators.chars before))) 0
                (negb (Nat.odd (length (rev (List.filter Validators.isDigit
                                               (Validators.chars after))))))).
  generalize (Validators.luhnDigit
                (Nat.odd (length (rev (List.filter Validators.isDigit
                                         (Validators.chars after)))))
                (Validators.digitValue d)).
  generalize (Validators.luhnDigit
                (Nat.odd (length (rev (List.filter Validators.isDigit
                                         (Validators.chars after)))))
                (Validators.digitValue d')).
  intros x' x b a. Z.div_mod_to_equations. lia.
Qed.

Lemma isValidCreditCard_detects_single_digit_error_witness :
  Validators.isValidCreditCard ("45320151128303" +:+ String "5" "6") = false.
Proof.
  apply (isValidCreditCard_detects_single_digit_error "45320151128303" "6" "6" "5").
  - reflexivity.
  - reflexivity.
  - discriminate.
  - vm_compute. reflexivity.
Defined.

Lemma digit_of_value (v : Z) :
  (0 ≤ v ≤ 9)%Z →
  Validators.isDigit (ascii_of_N (48 + Z.to_N v)) = true
  ∧ Validators.digitValue (ascii_of_N (48 + Z.to_N v)) = v.
Proof.
  intros Hv.
  assert (v = 0 ∨ v = 1 ∨ v = 2 ∨ v = 3 ∨ v = 4 ∨ v = 5 ∨ v = 6 ∨ v = 7 ∨ v = 8 ∨ v = 9)%Z
    as H by lia.
  repeat (destruct H as [->|H]; [by vm_compute|]). subst. by vm_compute.
Qed.

(** X22. Every body of 12 to 18 digits has exactly one check digit: among
    the ten digits that can be appended to it, one and only one makes
    [isValidCreditCard] accept the number. *)
Theorem isValidCreditCard_check_digit (body : string) :
  (12 ≤ length (List.filter Validators.isDigit (Validators.chars body)) ≤ 18)%nat →
  ∃ d, Validators.isDigit d = true
       ∧ Validators.isValidCreditCard (body +:+ String d "") = true
       ∧ ∀ d', Validators.isDigit d' = true →
               Validators.isValidCreditCard (body +:+ String d' "") = true →
               d' = d.
Proof.
  intros Hlen.
  set (rest := Validators.luhnLoop
                 (rev (List.filter Validators.isDigit (Validators.chars body))) 0 true).
  assert (∀ c, Validators.isDigit c = true →
            Validators.isValidCreditCard (body +:+ String c "")
            = Z.eqb ((Validators.digitValue c + rest) mod 10) 0) as Hcard.
  { intros c Hc. unfold Validators.isValidCreditCard.
    assert (length (List.filter Validators.isDigit
                      (Validators.chars (body +:+ String c "")))
            = S (length (List.filter Validators.isDigit (Validators.chars body)))) as Hl.
    { rewrite <- (length_rev (List.filter _ _)), cleanNumber_around by done.
      simpl. by rewrite length_rev. }
    rewrite Hl.
    assert (Nat.ltb (S (length (List.filter Validators.isDigit (Validators.chars body)))) 13
            || Nat.ltb 19 (S (length (List.filter Validators.isDigit
                                        (Validators.chars body)))) = false) as ->.
    { apply orb_false_iff. split; apply Nat.ltb_ge; lia. }
    rewrite cleanNumber_around by done.
    change (rev (List.filter Validators.isDigit (Validators.chars ""))) with (@nil ascii).
    cbn [app Validators.luhnLoop Validators.luhnDigit negb].
    rewrite luhnLoop_sum. fold rest. by rewrite Z.add_0_l. }
  destruct (digit_of_value ((- rest) mod 10)) as [Hd Hv];
    [Z.div_mod_to_equations; lia|].
  exists (ascii_of_N (48 + Z.to_N ((- rest) mod 10))).
  split; [exact Hd|]. split.
  - rewrite (Hcard _ Hd), Hv. apply Z.eqb_eq. Z.div_mod_to_equations. lia.
  - intros d' Hd' Hvalid. rewrite (Hcard _ Hd') in Hvalid. apply Z.eqb_eq in Hvalid.
    apply digitValue_inj. rewrite Hv.
    pose proof (digitValue_range _ Hd') as Hr. revert Hvalid Hr.
    generalize (Validators.digitValue d'). intros v. Z.div_mod_to_equations. lia.
Qed.

Lemma isValidCreditCard_check_digit_witness :
  ∃ d, Validators.isDigit d = true
       ∧ Validators.isValidCreditCard ("453201511283036" +:+ String d "") = true
       ∧ ∀ d', Validators.isDigit d' = true →
               Validators.isValidCreditCard ("453201511283036" +:+ String d' "") = true →
               d' = d.
Proof.
  apply (isValidCreditCard_check_digit "453201511283036"). vm_compute. split; lia.
Defined.

(** ** Regular expressions, isValidEmail and isValidMexicanPhone *)

Section Patterns.

Import Validators.


Lemma Matches_seq (r1 r2 : Regex) (s : list ascii) :
  Matches (Seq r1 r2) s ↔ ∃ s1 s2, s = s1 ++ s2 ∧ Matches r1 s1 ∧ Matches r2 s2.
Proof.
  split.
  - inversion 1; subst. by eexists _, _.
  - intros (s1 & s2 & -> & H1 & H2). by constructor.
Qed.

Lemma Matches_alt (r1 r2 : Regex) (s : list ascii) :
  Matches (Alt r1 r2) s ↔ Matches r1 s ∨ Matches r2 s.
Proof.
  split.
  - inversion 1; subst; [by left | by right].
  - intros [H|H]; [by apply MAltL | by apply MAltR].
Qed.

Lemma Matches_empty (s : list ascii) : Matches Empty s ↔ s = [].
Proof. split; [by inversion 1 | intros ->; constructor]. Qed.

Lemma Matches_never (s : list ascii) : ¬ Matches Never s.
Proof. inversion 1. Qed.

Lemma Matches_class (p : ascii → bool) (s : list ascii) :
  Matches (Class p) s ↔ ∃ c, s = [c] ∧ p c = true.
Proof.
  split.
  - inversion 1; subst. by eexists.
  - intros (c & -> & H). by constructor.
Qed.

Lemma Matches_star_cons_inv (r0 : Regex) (cs : list ascii) :
  Matches r0 cs →
  ∀ r c s, r0 = Star r → cs = c :: s →
    ∃ s1 s2, s = s1 ++ s2 ∧ Matches r (c :: s1) ∧ Matches (Star r) s2.
Proof.
  induction 1 as [| | | | | |r' s1 s2 H1 _ H2 IH2]; intros rr cc ss Hr Hcs;
    try discriminate.
  injection Hr as ->. destruct s1 as [|c' s1].
  - simpl in Hcs. by apply IH2.
  - simpl in Hcs. injection Hcs as -> <-. by eexists _, _.
Qed.

Lemma Matches_star_cons (r : Regex) (c : ascii) (s : list ascii) :
  Matches (Star r) (c :: s)
  ↔ ∃ s1 s2, s = s1 ++ s2 ∧ Matches r (c :: s1) ∧ Matches (Star r) s2.
Proof.
  split.
  - intros H. by apply (Matches_star_cons_inv _ _ H).
  - intros (s1 & s2 & -> & H1 & H2). by apply (MStarApp r (c :: s1) s2).
Qed.

Lemma nullable_correct (r : Regex) : nullable r = true ↔ Matches r [].
Proof.
  induction r as [| |p|r1 IH1 r2 IH2|r1 IH1 r2 IH2|r IH]; simpl.
  - split; [done | by intros H%Matches_never].
  - split; [constructor | done].
  - split; [done|]. intros (c & H & _)%Matches_class. done.
  - rewrite andb_true_iff, IH1, IH2, Matches_seq. split.
    + intros [H1 H2]. by exists [], [].
    + intros (s1 & s2 & Hs & H1 & H2). symmetry in Hs.
      apply app_eq_nil in Hs as [-> ->]. done.
  - by rewrite orb_true_iff, IH1, IH2, Matches_alt.
  - split; [constructor | done].
Qed.

Lemma deriv_correct (r : Regex) (c : ascii) (s : list ascii) :
  Matches (deriv c r) s ↔ Matches r (c :: s).
Proof.
  revert s. induction r as [| |p|r1 IH1 r2 IH2|r1 IH1 r2 IH2|r IH]; intros s; simpl.
  - split; by intros H%Matches_never.
  - split; [by intros H%Matches_never | by intros H%Matches_empty].
  - rewrite Matches_class. destruct (p c) eqn:E.
    + rewrite Matches_empty. split.
      * intros ->. by exists c.
      * intros (c' & [= -> ->] & _). done.
    + split; [by intros H%Matches_never|]. intros (c' & [= -> ->] & H). congruence.
  - assert (Matches (Seq (deriv c r1) r2) s
            ↔ ∃ s1 s2, s = s1 ++ s2 ∧ Matches r1 (c :: s1) ∧ Matches r2 s2) as Hseq.
    { rewrite Matches_seq. by setoid_rewrite IH1. }
    rewrite (Matches_seq r1 r2). destruct (nullable r1) eqn:N.
    + rewrite Matches_alt, Hseq, IH2. split.
      * intros [(s1 & s2 & -> & H1 & H2)|H].
        -- by exists (c :: s1), s2.
        -- exists [], (c :: s). split; [done|]. split; [by apply nullable_correct | done].
      * intros (s1 & s2 & Hs & H1 & H2). destruct s1 as [|c' s1].
        -- right. simpl in Hs. by subst.
        -- left. simpl in Hs. injection Hs as -> ->. by exists s1, s2.
    + rewrite Hseq. split.
      * intros (s1 & s2 & -> & H1 & H2). by exists (c :: s1), s2.
      * intros (s1 & s2 & Hs & H1 & H2). destruct s1 as [|c' s1].
        -- apply nullable_correct in H1. congruence.
        -- simpl in Hs. injection Hs as -> ->. by exists s1, s2.
  - by rewrite !Matches_alt, IH1, IH2.
  - rewrite Matches_star_cons, Matches_seq. by setoid_rewrite IH.
Qed.

Lemma matchesChars_correct (r : Regex) (s : list ascii) :
  matchesChars r s = true ↔ Matches r s.
Proof.
  revert r. induction s as [|c s IH]; intros r; simpl.
  - apply nullable_correct.
  - by rewrite IH, deriv_correct.
Qed.

Lemma test_correct (r : Regex) (s : string) : test r s = true ↔ Matches r (chars s).
Proof. apply matchesChars_correct. Qed.

Lemma Matches_chr (c : ascii) (s : list ascii) : Matches (Chr c) s ↔ s = [c].
Proof.
  unfold Chr. rewrite Matches_class. split.
  - intros (c' & -> & H). apply Ascii.eqb_eq in H. by subst.
  - intros ->. exists c. split; [done|]. apply Ascii.eqb_refl.
Qed.

Lemma Matches_str (cs s : list ascii) : Matches (Str cs) s ↔ s = cs.
Proof.
  revert s. induction cs as [|c cs IH]; intros s; simpl.
  - apply Matches_empty.
  - rewrite Matches_seq. split.
    + intros (s1 & s2 & -> & H1 & H2). apply Matches_chr in H1. apply IH in H2.
      by subst.
    + intros ->. exists [c], cs. split; [done|]. split; [by apply Matches_chr | by apply IH].
Qed.

Lemma Matches_opt (r : Regex) (s : list ascii) :
  Matches (Opt r) s ↔ s = [] ∨ Matches r s.
Proof. unfold Opt. rewrite Matches_alt, Matches_empty. tauto. Qed.

Lemma Matches_star_class (p : ascii → bool) (s : list ascii) :
  Matches (Star (Class p)) s ↔ Forall (fun c => p c = true) s.
Proof.
  induction s as [|c s IH].
  - split; [constructor | intros _; constructor].
  - rewrite Matches_star_cons. split.
    + intros (s1 & s2 & -> & H1 & H2). apply Matches_class in H1 as (c' & [= -> ->] & Hc).
      constructor; [done|]. by apply IH.
    + intros H. inversion H as [|? ? Hc Hs]; subst. exists [], s.
      split; [done|]. split; [by apply Matches_class; eexists | by apply IH].
Qed.

Lemma Matches_plus_class (p : ascii → bool) (s : list ascii) :
  Matches (Plus (Class p)) s ↔ s ≠ [] ∧ Forall (fun c => p c = true) s.
Proof.
  unfold Plus. rewrite Matches_seq. split.
  - intros (s1 & s2 & -> & H1 & H2). apply Matches_class in H1 as (c & -> & Hc).
    apply Matches_star_class in H2. split; [done | by constructor].
  - intros [Hne H]. destruct s as [|c s]; [done|]. inversion H; subst.
    exists [c], s. split; [done|].
    split; [apply Matches_class; by eexists | by apply Matches_star_class].
Qed.

Lemma Matches_times_class (n : nat) (p : ascii → bool) (s : list ascii) :
  Matches (Times n (Class p)) s ↔ length s = n ∧ Forall (fun c => p c = true) s.
Proof.
  revert s. induction n as [|n IH]; intros s; simpl.
  - rewrite Matches_empty. split.
    + intros ->. split; [done | constructor].
    + intros [H _]. by destruct s.
  - rewrite Matches_seq. split.
    + intros (s1 & s2 & -> & H1 & H2). apply Matches_class in H1 as (c & -> & Hc).
      apply IH in H2 as [Hl Hf]. simpl. split; [by rewrite Hl | by constructor].
    + intros [Hl Hf]. destruct s as [|c s]; [done|]. inversion Hf; subst.
      exists [c], s. split; [done|]. split; [apply Matches_class; by eexists|].
      apply IH. split; [by injection Hl | done].
Qed.

Lemma notSpaceNorAt_true (c : ascii) :
  notSpaceNorAt c = true ↔ isWhiteSpace c = false ∧ c ≠ "@"%char.
Proof.
  unfold notSpaceNorAt. rewrite negb_true_iff, orb_false_iff, Ascii.eqb_neq. done.
Qed.

Lemma filter_all_false {A} (p : A → bool) (l : list A) :
  Forall (fun x => p x = false) l → List.filter p l = [].
Proof.
  induction 1 as [|x l Hx _ IH]; simpl; [done|]. by rewrite Hx.
Qed.

Lemma Forall_filter_true {A} (p : A → bool) (l : list A) :
  Forall (fun x => p x = true) (List.filter p l).
Proof.
  induction l as [|x l IH]; simpl; [constructor|].
  destruct (p x) eqn:E; [by constructor | done].
Qed.

Lemma emailRegex_matches (cs : list ascii) :
  Matches emailRegex cs
  ↔ ∃ localPart domain tld,
      cs = localPart ++ "@"%char :: domain ++ "."%char :: tld
      ∧ localPart ≠ [] ∧ domain ≠ [] ∧ tld ≠ []
      ∧ Forall (fun c => notSpaceNorAt c = true) (localPart ++ domain ++ tld).
Proof.
  unfold emailRegex. split.
  - intros (l & s1 & -> & Hl & H1)%Matches_seq.
    apply Matches_seq in H1 as (a & s2 & -> & Ha & H2).
    apply Matches_seq in H2 as (d & s3 & -> & Hd & H3).
    apply Matches_seq in H3 as (p & t & -> & Hp & Ht).
    apply Matches_chr in Ha, Hp. subst a p.
    apply Matches_plus_class in Hl as [Hl1 Hl2], Hd as [Hd1 Hd2], Ht as [Ht1 Ht2].
    exists l, d, t. split; [done|].
    repeat split; try done. by rewrite !Forall_app.
  - intros (l & d & t & -> & Hl & Hd & Ht & Hall).
    rewrite !Forall_app in Hall. destruct Hall as (Hl2 & Hd2 & Ht2).
    apply Matches_seq. exists l, ("@"%char :: d ++ "."%char :: t).
    split; [done|]. split; [by apply Matches_plus_class|].
    apply Matches_seq. exists ["@"%char], (d ++ "."%char :: t).
    split; [done|]. split; [by apply Matches_chr|].
    apply Matches_seq. exists d, ("."%char :: t).
    split; [done|]. split; [by apply Matches_plus_class|].
    apply Matches_seq. exists ["."%char], t.
    split; [done|]. split; [by apply Matches_chr | by apply Matches_plus_class].
Qed.

(** X23. [isValidEmail] accepts exactly the strings of the form
    local@domain.tld whose three parts are non-empty and hold neither white
    space nor another at-sign. An accepted address therefore has no white
    space anywhere and exactly one at-sign. *)
Theorem isValidEmail_shape (email : string) :
  (isValidEmail email = true
   ↔ ∃ localPart domain tld,
       chars email = localPart ++ "@"%char :: domain ++ "."%char :: tld
       ∧ localPart ≠ [] ∧ domain ≠ [] ∧ tld ≠ []
       ∧ Forall (fun c => notSpaceNorAt c = true) (localPart ++ domain ++ tld))
  ∧ (isValidEmail email = true →
     Forall (fun c => isWhiteSpace c = false) (chars email)
     ∧ length (List.filter (Ascii.eqb "@") (chars email)) = 1%nat).
Proof.
  assert (isValidEmail email = true
          ↔ ∃ localPart domain tld,
              chars email = localPart ++ "@"%char :: domain ++ "."%char :: tld
              ∧ localPart ≠ [] ∧ domain ≠ [] ∧ tld ≠ []
              ∧ Forall (fun c => notSpaceNorAt c = true) (localPart ++ domain ++ tld))
    as Hiff.
  { unfold isValidEmail. by rewrite test_correct, emailRegex_matches. }
  split; [exact Hiff|].
  intros (l & d & t & -> & _ & _ & _ & Hall)%Hiff.
  rewrite !Forall_app in Hall. destruct Hall as (Hl & Hd & Ht).
  assert (∀ cs, Forall (fun c => notSpaceNorAt c = true) cs →
            Forall (fun c => isWhiteSpace c = false) cs
            ∧ List.filter (Ascii.eqb "@") cs = []) as Hpart.
  { intros cs Hcs. split.
    - eapply Forall_impl; [exact Hcs|]. by intros c [? _]%notSpaceNorAt_true.
    - apply filter_all_false. eapply Forall_impl; [exact Hcs|].
      intros c [_ Hc]%notSpaceNorAt_true. apply Ascii.eqb_neq. congruence. }
  destruct (Hpart _ Hl) as [Hl1 Hl2], (Hpart _ Hd) as [Hd1 Hd2],
    (Hpart _ Ht) as [Ht1 Ht2].
  split.
  - rewrite Forall_app. split; [done|]. constructor; [done|].
    rewrite Forall_app. split; [done|]. by constructor.
  - rewrite List.filter_app. cbn [List.filter]. rewrite List.filter_app. cbn [List.filter].
    rewrite Hl2, Hd2, Ht2. done.
Qed.

Lemma isValidEmail_shape_witness :
  length (List.filter (Ascii.eqb "@") (chars "usuario@ejemplo.com")) = 1%nat.
Proof.
  destruct (isValidEmail_shape "usuario@ejemplo.com") as [_ H].
  apply H. vm_compute. reflexivity.
Defined.

(** X24. The rule made by [createEmailRule] accepts every falsy value, so
    it leaves an optional field alone; on a non-empty string it returns the
    empty string exactly when [isValidEmail] accepts the string. It does
    not trim: a string with white space anywhere, a leading or trailing
    space included, is rejected, and so is one without exactly one
    at-sign. *)
Theorem createEmailRule_does_not_trim (message : option string) :
  let rejected := default ("Formato de email inv" +:+ a_acute +:+ "lido") message in
  (∀ value, truthy value = false → createEmailRule message value = Ok "")
  ∧ (∀ s, s ≠ "" →
       createEmailRule message (JStr s)
       = Ok (if isValidEmail s then "" else rejected))
  ∧ (∀ s, s ≠ "" →
       (Exists (fun c => isWhiteSpace c = true) (chars s)
        ∨ length (List.filter (Ascii.eqb "@") (chars s)) ≠ 1%nat) →
       createEmailRule message (JStr s) = Ok rejected).
Proof.
  intros rejected.
  assert (∀ s, s ≠ "" →
            createEmailRule message (JStr s)
            = Ok (if isValidEmail s then "" else rejected)) as Hstr.
  { intros s Hs. unfold createEmailRule. rewrite truthy_string.
    apply nonEmpty_true in Hs. rewrite Hs. simpl. by destruct (isValidEmail s). }
  split; [|split; [exact Hstr|]].
  - intros value Hv. unfold createEmailRule. by rewrite Hv.
  - intros s Hs Hbad. rewrite (Hstr s Hs).
    destruct (isValidEmail s) eqn:E; [|done]. exfalso.
    destruct (isValidEmail_shape s) as [_ Hshape].
    destruct (Hshape E) as [Hws Hat]. destruct Hbad as [Hbad|Hbad]; [|done].
    apply Exists_exists in Hbad as (c & Hin & Hc).
    rewrite Forall_forall in Hws. specialize (Hws c Hin). congruence.
Qed.

Lemma createEmailRule_does_not_trim_witness :
  createEmailRule (Some "Email invalido") (JStr " a@b.c") = Ok "Email invalido".
Proof.
  destruct (createEmailRule_does_not_trim (Some "Email invalido")) as (_ & _ & H).
  apply (H " a@b.c").
  - discriminate.
  - left. apply Exists_cons_hd. reflexivity.
Defined.

Lemma isNonZeroDigit_isDigit (c : ascii) : isNonZeroDigit c = true → isDigit c = true.
Proof.
  unfold isNonZeroDigit, isDigit, inRange. rewrite !andb_true_iff, !N.leb_le.
  change (code "0") with 48%N. change (code "1") with 49%N. lia.
Qed.

Lemma phoneRegex_matches (cs : list ascii) :
  Forall (fun c => isSpaceOrHyphen c = false) cs →
  Matches phoneRegex cs
  ↔ ∃ countryCode number,
      cs = countryCode ++ number
      ∧ (countryCode = [] ∨ countryCode = chars "+52" ∨ countryCode = chars "52")
      ∧ length number = 10%nat
      ∧ Forall (fun c => isDigit c = true) number
      ∧ ∃ c rest, number = c :: rest ∧ isNonZeroDigit c = true.
Proof.
  intros Hclean. unfold phoneRegex. split.
  - intros (k & s1 & -> & Hk & H1)%Matches_seq.
    apply Matches_seq in H1 as (sep & s2 & -> & Hsep & H2).
    apply Matches_seq in H2 as (h & t & -> & Hh & Ht).
    apply Matches_class in Hh as (c & -> & Hc).
    apply Matches_times_class in Ht as [Hlen Hdigits].
    assert (sep = []) as ->.
    { apply Matches_opt in Hsep as [->|(x & -> & Hx)%Matches_class]; [done|].
      rewrite !Forall_app in Hclean. destruct Hclean as (_ & Hx' & _).
      inversion Hx'; subst. congruence. }
    exists k, (c :: t). split; [done|]. split.
    + apply Matches_opt in Hk as [->|Hk]; [by left|].
      apply Matches_alt in Hk as [Hk|Hk]; apply Matches_str in Hk; subst; auto.
    + split; [simpl; by rewrite Hlen|].
      split; [constructor; [by apply isNonZeroDigit_isDigit | done]|].
      by exists c, t.
  - intros (k & number & -> & Hk & Hlen & Hdigits & c & t & -> & Hc).
    apply Matches_seq. exists k, (c :: t). split; [done|]. split.
    + apply Matches_opt. destruct Hk as [->|[->| ->]]; [by left|..]; right;
        apply Matches_alt; [left | right]; by apply Matches_str.
    + apply Matches_seq. exists [], (c :: t). split; [done|].
      split; [apply Matches_opt; by left|].
      apply Matches_seq. exists [c], t. split; [done|].
      split; [apply Matches_class; by exists c|].
      apply Matches_times_class. inversion Hdigits; subst.
      split; [by injection Hlen | done].
Qed.

(** X25. [isValidMexicanPhone] first drops every white space and hyphen,
    wherever they stand, and then accepts exactly an optional country code
    +52 or 52 followed by ten digits of which the first is not zero.
    Adding or removing spaces and hyphens never changes its answer. *)
Theorem isValidMexicanPhone_shape (phone : string) :
  let kept := List.filter (fun c => negb (isSpaceOrHyphen c)) (chars phone) in
  (isValidMexicanPhone phone = true
   ↔ ∃ countryCode number,
       kept = countryCode ++ number
       ∧ (countryCode = [] ∨ countryCode = chars "+52" ∨ countryCode = chars "52")
       ∧ length number = 10%nat
       ∧ Forall (fun c => isDigit c = true) number
       ∧ ∃ c rest, number = c :: rest ∧ isNonZeroDigit c = true)
  ∧ (∀ before separators after,
       phone = before +:+ separators +:+ after →
       Forall (fun c => isSpaceOrHyphen c = true) (chars separators) →
       isValidMexicanPhone phone = isValidMexicanPhone (before +:+ after)).
Proof.
  intros kept. split.
  - unfold isValidMexicanPhone. rewrite test_correct, chars_unchars. fold kept.
    apply phoneRegex_matches. subst kept.
    eapply Forall_impl; [apply Forall_filter_true|].
    intros c Hc. by apply negb_true_iff.
  - intros before separators after -> Hsep. unfold isValidMexicanPhone.
    rewrite !chars_app, !List.filter_app.
    rewrite (filter_all_false _ (chars separators)); [done|].
    eapply Forall_impl; [exact Hsep|]. intros c Hc. by rewrite Hc.
Qed.

Lemma isValidMexicanPhone_shape_witness :
  isValidMexicanPhone ("+52" +:+ " - " +:+ "5512345678")
  = isValidMexicanPhone ("+52" +:+ "5512345678").
Proof.
  destruct (isValidMexicanPhone_shape ("+52" +:+ " - " +:+ "5512345678")) as [_ H].
  apply (H "+52" " - " "5512345678"); [reflexivity|].
  repeat constructor.
Defined.

End Patterns.
